(** * chatbot.py: the response resolver and the conversation state machine

    A shallow embedding of [src/chatbot.py]: the pattern registry
    ([ChatResponder]), the two resolvers ([get_response],
    [get_personal_response]) and the group-chat dispatcher of [ChatBot]
    ([handle_groupchat_message]) with its three control rules
    ([start_silence], [end_silence], [set_timeout]).

    Conventions.
    - Python byte strings are [string]s (lists of 8-bit characters).
    - Patterns are kept in abstract syntax ([Re.regex]); next to every
      pattern the source literal is quoted.  [Re] implements the part of
      Python's [re] the program relies on: search, the MULTILINE flag,
      the anchors, [\b], and substitution.
    - [datetime.datetime] values are integers counting microseconds;
      the clock reading [datetime.datetime.now()] of a dispatch is the
      argument [now] of the dispatcher.
    - The transport ([xmpp]) is outside the model: a dispatch returns the
      text handed to [client.send], if any. *)

From Stdlib Require Import Bool List Arith ZArith Lia Ascii String.
Import ListNotations.

Set Implicit Arguments.

Local Open Scope string_scope.
Local Open Scope list_scope.
Local Open Scope nat_scope.

(* ================================================================== *)
(** ** Python values used by the program *)

Module Py.

(** [str.lower] on a byte string: only [A]..[Z] change. *)
Definition lower_char (c : ascii) : ascii :=
  let n := nat_of_ascii c in
  if ((65 <=? n) && (n <=? 90))%nat then ascii_of_nat (n + 32) else c.

Fixpoint lower (s : string) : string :=
  match s with
  | EmptyString => EmptyString
  | String c s' => String (lower_char c) (lower s')
  end.

(** Truth value of a handler result: [None] and [''] are false. *)
Definition truthy (r : option string) : bool :=
  match r with
  | Some (String _ _) => true
  | _ => false
  end.

(** [x in l] for a list of strings. *)
Definition contains (x : string) (l : list string) : bool :=
  existsb (String.eqb x) l.

(** [str(raw.decode('utf-8'))] under Python 2 (the [xmpp] package is a
    Python 2 library): the UTF-8 decoding gives a unicode object and
    [str] encodes it with the ASCII codec, so the expression evaluates
    exactly when every byte is below 128, and then to the same bytes;
    otherwise it raises. *)
Definition is_ascii (c : ascii) : bool := (nat_of_ascii c <? 128)%nat.

Definition decode_utf8_str (raw : string) : option string :=
  if forallb is_ascii (list_ascii_of_string raw) then Some raw else None.

End Py.

(* ================================================================== *)
(** ** The part of Python's [re] module the program uses *)

Module Re.

Inductive regex : Type :=
| Eps                       (* the empty pattern, as in [()] *)
| Chr (c : ascii)           (* a literal character *)
| Dot                       (* [.] : any character but a newline *)
| Space                     (* [\s] *)
| Word                      (* [\w] *)
| Seq (r1 r2 : regex)       (* concatenation *)
| Alt (r1 r2 : regex)       (* [r1|r2] *)
| Opt (r : regex)           (* [r?], greedy *)
| Star (r : regex)          (* [r*], greedy *)
| Group (r : regex)         (* [(r)] *)
| Bol                       (* [^] *)
| Eol                       (* [$] *)
| WordB.                    (* [\b] *)

(** A literal run of characters. *)
Fixpoint Lit (s : string) : regex :=
  match s with
  | EmptyString => Eps
  | String c EmptyString => Chr c
  | String c s' => Seq (Chr c) (Lit s')
  end.

(** [r1|r2|...|rn]; the empty alternation is the empty pattern, as the
    empty string between the parentheses of [()] is. *)
Fixpoint Alts (rs : list regex) : regex :=
  match rs with
  | [] => Eps
  | [r] => r
  | r :: rs' => Alt r (Alts rs')
  end.

Definition newline : ascii := "010"%char.

Definition is_linebreak (c : ascii) : bool := Ascii.eqb c newline.

(** [\w] for byte strings: [a-zA-Z0-9_]. *)
Definition is_word (c : ascii) : bool :=
  let n := nat_of_ascii c in
  (((97 <=? n) && (n <=? 122)) || ((65 <=? n) && (n <=? 90))
   || ((48 <=? n) && (n <=? 57)) || (n =? 95))%nat.

(** [\s] for byte strings: space, [\t], [\n], [\v], [\f], [\r]. *)
Definition is_space (c : ascii) : bool :=
  let n := nat_of_ascii c in
  ((n =? 32) || ((9 <=? n) && (n <=? 13)))%nat.

(** A position in the subject: the character before it, if any, and
    the characters from it on. *)
Definition cursor : Type := option ascii * list ascii.

(** The match object, reduced to its span. *)
Record Match : Type := { m_start : nat; m_end : nat }.

Section Engine.

(** [re.M] *)
Variable multiline : bool.

Definition word_before (k : cursor) : bool :=
  match fst k with Some c => is_word c | None => false end.

Definition word_after (k : cursor) : bool :=
  match snd k with c :: _ => is_word c | [] => false end.

(** [^]: the start of the subject; with [re.M] also after a newline. *)
Definition at_beginning (k : cursor) : bool :=
  match fst k with
  | None => true
  | Some c => multiline && is_linebreak c
  end.

(** [$]: the end of the subject or just before its final newline;
    with [re.M] before any newline. *)
Definition at_end (k : cursor) : bool :=
  match snd k with
  | [] => true
  | c :: tl => is_linebreak c && (multiline || match tl with [] => true | _ => false end)
  end.

(** [\b]: exactly one side of the position is a word character. *)
Definition at_boundary (k : cursor) : bool :=
  xorb (word_before k) (word_after k).

Definition eat (p : ascii -> bool) (k : cursor) : list cursor :=
  match snd k with
  | c :: tl => if p c then [(Some c, tl)] else []
  | [] => []
  end.

Definition guard (b : bool) (k : cursor) : list cursor :=
  if b then [k] else [].

(** [ends r k]: the positions at which a match of [r] starting at [k]
    can end, in the order a backtracking matcher tries them.  An
    iteration of [Star] that consumes nothing is not repeated. *)
Fixpoint ends (r : regex) (k : cursor) : list cursor :=
  match r with
  | Eps => [k]
  | Chr c => eat (Ascii.eqb c) k
  | Dot => eat (fun c => negb (is_linebreak c)) k
  | Space => eat is_space k
  | Word => eat is_word k
  | Seq r1 r2 => flat_map (ends r2) (ends r1 k)
  | Alt r1 r2 => ends r1 k ++ ends r2 k
  | Opt r1 => ends r1 k ++ [k]
  | Star r1 =>
      (fix loop (fuel : nat) (k : cursor) {struct fuel} : list cursor :=
         match fuel with
         | O => [k]
         | S fuel' =>
             flat_map
               (fun k' =>
                  if (List.length (snd k') <? List.length (snd k))%nat
                  then loop fuel' k' else [])
               (ends r1 k) ++ [k]
         end) (List.length (snd k)) k
  | Group r1 => ends r1 k
  | Bol => guard (at_beginning k) k
  | Eol => guard (at_end k) k
  | WordB => guard (at_boundary k) k
  end.

(** The scan of [re.search]: the leftmost position with a match. *)
Fixpoint scan (r : regex) (i : nat) (prev : option ascii)
         (rest : list ascii) : option Match :=
  match ends r (prev, rest) with
  | k' :: _ =>
      Some {| m_start := i;
              m_end := i + (List.length rest - List.length (snd k')) |}
  | [] =>
      match rest with
      | [] => None
      | c :: tl => scan r (S i) (Some c) tl
      end
  end.

(** The scan of [re.sub]: every match, left to right, is replaced.
    (After an empty match the next character is copied; the one
    pattern the program substitutes never matches empty.) *)
Fixpoint subst (fuel : nat) (r : regex) (repl : list ascii)
         (prev : option ascii) (rest : list ascii) : list ascii :=
  match fuel with
  | O => rest
  | S fuel' =>
      match ends r (prev, rest) with
      | k' :: _ =>
          if (List.length (snd k') <? List.length rest)%nat
          then repl ++ subst fuel' r repl (fst k') (snd k')
          else repl ++
               match rest with
               | [] => []
               | c :: tl => c :: subst fuel' r repl (Some c) tl
               end
      | [] =>
          match rest with
          | [] => []
          | c :: tl => c :: subst fuel' r repl (Some c) tl
          end
      end
  end.

End Engine.

(** [re.search(r, text, re.M)] when [multiline], [re.search(r, text)]
    otherwise. *)
Definition search (multiline : bool) (r : regex) (text : string)
  : option Match :=
  scan multiline r 0 None (list_ascii_of_string text).

(** [re.sub(r, repl, text)] *)
Definition sub (r : regex) (repl text : string) : string :=
  let l := list_ascii_of_string text in
  string_of_list_ascii
    (subst false (S (List.length l)) r (list_ascii_of_string repl) None l).

(** The truth value of a search result. *)
Definition found (m : option Match) : bool :=
  match m with Some _ => true | None => false end.

End Re.

Import Py Re.

(* ================================================================== *)
(** ** [ChatResponder]: the ordered rule registry and its two resolvers *)

Section ChatResponder.

(** The type of the [bot] argument handed to the handlers. *)
Variable Bot : Type.

(** A handler [func(bot, m, text, user)]: its result ([None] or a
    string) and the bot as the call leaves it. *)
Definition Handler : Type :=
  Bot -> Match -> string -> string -> option string * Bot.

(** What the decorator [__call__] attaches to a function before it
    appends it to the list: [expressions], [only_for] (the keyword
    [only_respond_to], [None] by default) and the function itself. *)
Record Rule : Type := {
  expressions : list regex;
  only_for : option string;
  call : Handler
}.

(** The loop [for exp in response.expressions] of both resolvers: the
    handler runs on every expression that matches, until one call
    gives back text. *)
Fixpoint try_expressions (func : Handler) (exps : list regex)
         (bot : Bot) (text user : string) : option string * Bot :=
  match exps with
  | [] => (None, bot)
  | exp :: exps' =>
      match search true exp text with
      | Some m =>
          let (r, bot') := func bot m text user in
          if truthy r then (r, bot')
          else try_expressions func exps' bot' text user
      | None => try_expressions func exps' bot text user
      end
  end.

(** [ChatResponder.get_response] *)
Fixpoint get_response (self : list Rule) (bot : Bot) (text user : string)
  : option string * Bot :=
  match self with
  | [] => (None, bot)
  | response :: self' =>
      match only_for response with
      | None =>
          let (r, bot') :=
            try_expressions (call response) (expressions response)
                            bot text user in
          if truthy r then (r, bot')
          else get_response self' bot' text user
      | Some _ => get_response self' bot text user
      end
  end.

(** The test [response.only_for and
    response.only_for.lower() == target_user.lower()]. *)
Definition is_for (response : Rule) (target_user : string) : bool :=
  match only_for response with
  | Some o => truthy (Some o) && String.eqb (lower o) (lower target_user)
  | None => false
  end.

(** [ChatResponder.get_personal_response] *)
Fixpoint get_personal_response (self : list Rule) (bot : Bot)
         (text user target_user : string) : option string * Bot :=
  match self with
  | [] => (None, bot)
  | response :: self' =>
      if is_for response target_user then
        let (r, bot') :=
          try_expressions (call response) (expressions response)
                          bot text user in
        if truthy r then (r, bot')
        else get_personal_response self' bot' text user target_user
      else get_personal_response self' bot text user target_user
  end.

(** Both entry points at once, for statements that hold of either:
    [resolve None] is [get_response], [resolve (Some t)] is
    [get_personal_response] for the target [t]; [eligible] is the test
    each of them puts on a rule. *)
Definition resolve (target : option string) (self : list Rule)
           (bot : Bot) (text user : string) : option string * Bot :=
  match target with
  | None => get_response self bot text user
  | Some t => get_personal_response self bot text user t
  end.

Definition eligible (target : option string) (response : Rule) : bool :=
  match target with
  | None => match only_for response with None => true | Some _ => false end
  | Some t => is_for response t
  end.

End ChatResponder.

Arguments Build_Rule {Bot} _ _ _.

(* ================================================================== *)
(** ** [ChatBot]: state, control rules and the group-chat dispatcher *)

(** A reply template of a response table, [response] in
    [response.format(nicefrom)], in parsed form: literal text and
    replacement fields for the one positional argument. *)
Inductive piece : Type :=
| Text (s : string)
| Field0.

Definition template : Type := list piece.

Fixpoint format (t : template) (arg : string) : string :=
  match t with
  | [] => EmptyString
  | Text s :: t' => String.append s (format t' arg)
  | Field0 :: t' => String.append arg (format t' arg)
  end.

(** A response table as [yaml.load] gives it: pairs of an expression and
    a reply template, in file order. *)
Definition table : Type := list (regex * template).

(** The attributes of a [ChatBot] the dispatcher reads or writes.
    [None] is Python's [None]; [prev_message] and [curr_message] start
    as the empty string. *)
Record ChatBot : Type := {
  my_names : list string;
  ignore_from : list string;
  prev_message : option string;
  curr_message : option string;
  timeout : option Z;
  silent : bool;
  startup : option Z;
  me_responds : table;
  chat_responds : table
}.

Definition with_prev_curr (p c : option string) (self : ChatBot) : ChatBot :=
  {| my_names := my_names self; ignore_from := ignore_from self;
     prev_message := p; curr_message := c;
     timeout := timeout self; silent := silent self;
     startup := startup self;
     me_responds := me_responds self; chat_responds := chat_responds self |}.

Definition with_curr_message (c : option string) (self : ChatBot) : ChatBot :=
  with_prev_curr (prev_message self) c self.

Definition with_timeout (t : option Z) (self : ChatBot) : ChatBot :=
  {| my_names := my_names self; ignore_from := ignore_from self;
     prev_message := prev_message self; curr_message := curr_message self;
     timeout := t; silent := silent self;
     startup := startup self;
     me_responds := me_responds self; chat_responds := chat_responds self |}.

Definition with_silent (s : bool) (self : ChatBot) : ChatBot :=
  {| my_names := my_names self; ignore_from := ignore_from self;
     prev_message := prev_message self; curr_message := curr_message self;
     timeout := timeout self; silent := s;
     startup := startup self;
     me_responds := me_responds self; chat_responds := chat_responds self |}.

Definition with_startup (s : option Z) (self : ChatBot) : ChatBot :=
  {| my_names := my_names self; ignore_from := ignore_from self;
     prev_message := prev_message self; curr_message := curr_message self;
     timeout := timeout self; silent := silent self;
     startup := s;
     me_responds := me_responds self; chat_responds := chat_responds self |}.

Definition with_tables (me chat : table) (self : ChatBot) : ChatBot :=
  {| my_names := my_names self; ignore_from := ignore_from self;
     prev_message := prev_message self; curr_message := curr_message self;
     timeout := timeout self; silent := silent self;
     startup := startup self;
     me_responds := me; chat_responds := chat |}.

Definition with_ignore_from (l : list string) (self : ChatBot) : ChatBot :=
  {| my_names := my_names self; ignore_from := l;
     prev_message := prev_message self; curr_message := curr_message self;
     timeout := timeout self; silent := silent self;
     startup := startup self;
     me_responds := me_responds self; chat_responds := chat_responds self |}.

(** [datetime.timedelta(minutes=n)], in microseconds. *)
Definition minutes (n : Z) : Z := (n * 60000000)%Z.

(** The top of the [while not self.stop] loop of [__init__]: the grace
    period is set one minute ahead of the clock reading [now] and both
    tables are loaded. *)
Definition reload (now : Z) (me chat : table) (self : ChatBot) : ChatBot :=
  with_tables me chat (with_startup (Some (now + minutes 1)%Z) self).

(** [ChatBot.update_message_state] *)
Definition update_message_state (self : ChatBot) : ChatBot :=
  if truthy (curr_message self)
  then with_prev_curr (curr_message self) None self
  else self.

(** [ChatBot.send_to_chat]: the message goes to the room, then the
    housekeeping runs. *)
Definition send_to_chat (self : ChatBot) (message : string)
  : ChatBot * option string :=
  (update_message_state self, Some message).

(** *** The rules registered in [me_responder] *)

(** [r'^(be )?quiet\b'] *)
Definition quiet_expression : regex :=
  Seq Bol (Seq (Opt (Group (Lit "be "))) (Seq (Lit "quiet") WordB)).

(** [r'^okay,?'] *)
Definition okay_expression : regex :=
  Seq Bol (Seq (Lit "okay") (Opt (Chr ","%char))).

(** [r'\b(that\'?s )?enough\b|\btake a break\b|\bhush\b'] *)
Definition enough_expression : regex :=
  Alt (Seq WordB
         (Seq (Opt (Group (Seq (Lit "that")
                             (Seq (Opt (Chr "'"%char)) (Lit "s ")))))
            (Seq (Lit "enough") WordB)))
    (Alt (Seq WordB (Seq (Lit "take a break") WordB))
       (Seq WordB (Seq (Lit "hush") WordB))).

(** [ChatBot.start_silence] *)
Definition start_silence : Handler ChatBot :=
  fun self m text user =>
    (Some "sorry. i'll put a lid on it.", with_silent true self).

(** [ChatBot.end_silence] *)
Definition end_silence : Handler ChatBot :=
  fun self m text user =>
    (Some (String.append "thanks, " (lower user)),
     with_timeout None (with_silent false self)).

(** [ChatBot.set_timeout]; [now] is the clock reading of the call. *)
Definition set_timeout (now : Z) : Handler ChatBot :=
  fun self m text user =>
    (Some "i'm gonna stay quiet for a bit.",
     with_timeout (Some (now + minutes 10)%Z) self).

(** The module-level list [me_responder] after the class body has run:
    the three decorated methods, in the order of their definition, none
    with [only_respond_to]. *)
Definition me_responder (now : Z) : list (Rule ChatBot) :=
  [ Build_Rule [quiet_expression] None start_silence;
    Build_Rule [okay_expression] None end_silence;
    Build_Rule [enough_expression] None (set_timeout now) ].

(** *** The dispatcher *)

(** An incoming group-chat stanza: what [message.getBody()] returns (a
    byte string, or [None] when the stanza has no body) and
    [message.getFrom().getResource()]. *)
Record Message : Type := {
  getBody : option string;
  getResource : string
}.

(** Line 185, [str(message.getBody().decode('utf-8'))]; [None] when the
    expression raises. *)
Definition decode_body (message : Message) : option string :=
  match getBody message with
  | Some raw => decode_utf8_str raw
  | None => None
  end.

(** [r'\s.*$'] *)
Definition decoration : regex := Seq Space (Seq (Star Dot) Eol).

(** [r'\b(%s)\b' % '|'.join(self.my_names)].  The names stand for
    themselves: they are taken to be free of the characters [re] gives a
    meaning to. *)
Definition names_expression (names : list string) : regex :=
  Seq WordB (Seq (Group (Alts (map Lit names))) WordB).

(** The test of line 204. *)
Definition addressed (names : list string) (msgtext : string) : bool :=
  found (search false (names_expression names) msgtext).

(** The loop of lines 215-217 over [self.me_responds]: the template of
    the first entry whose expression is found in the text. *)
Fixpoint first_response (responds : table) (msgtext : string)
  : option template :=
  match responds with
  | [] => None
  | (expression, response) :: responds' =>
      if found (search false expression msgtext) then Some response
      else first_response responds' msgtext
  end.

(** Lines 219-229: the silence gate and the timeout gate, after which
    the method ends. *)
Definition gates (self : ChatBot) (now : Z) : ChatBot * option string :=
  if silent self then (update_message_state self, None)
  else
    match timeout self with
    | Some t =>
        if (now <? t)%Z then (update_message_state self, None)
        else (with_timeout None self, None)
    | None => (self, None)
    end.

(** The string a true result is. *)
Definition text_of (r : option string) : string :=
  match r with Some s => s | None => EmptyString end.

(** Lines 206-217, the body of [if re.search(...)]; when no rule and no
    table entry answers, control leaves the block and reaches the gates. *)
Definition spoken_to (self : ChatBot) (now : Z) (msgtext nicefrom : string)
  : ChatBot * option string :=
  let (out, self) := get_response (me_responder now) self msgtext nicefrom in
  if truthy out then send_to_chat self (text_of out)
  else if silent self then (update_message_state self, None)
  else
    match first_response (me_responds self) msgtext with
    | Some response => send_to_chat self (format response nicefrom)
    | None => gates self now
    end.

(** Lines 177-181, the startup delay: [None] when the method returns,
    otherwise the bot with the delay over. *)
Definition past_startup (self : ChatBot) (now : Z) : option ChatBot :=
  match startup self with
  | Some s => if (now <? s)%Z then None else Some (with_startup None self)
  | None => Some self
  end.

(** [ChatBot.handle_groupchat_message]: the bot after the call and the
    text sent to the room, if any. *)
Definition handle_groupchat_message (self : ChatBot) (now : Z)
           (message : Message) : ChatBot * option string :=
  match past_startup self now with
  | None => (self, None)
  | Some self =>
      match decode_body message with
      | None => (self, None)
      | Some msgbody =>
          let msgfrom := getResource message in
          let nicefrom := sub decoration EmptyString msgfrom in
          let msgtext := lower msgbody in
          let self := with_curr_message (Some msgtext) self in
          if contains (lower msgfrom) (ignore_from self) then (self, None)
          else if addressed (my_names self) msgtext
               then spoken_to self now msgtext nicefrom
               else gates self now
      end
  end.

(** The class attributes of [ChatBot], for a bot called [names] that has
    loaded its tables and whose startup delay is over. *)
Definition fresh (names : list string) (me chat : table) : ChatBot :=
  {| my_names := names; ignore_from := [];
     prev_message := Some EmptyString; curr_message := Some EmptyString;
     timeout := None; silent := false; startup := None;
     me_responds := me; chat_responds := chat |}.

Definition says (who body : string) : Message :=
  {| getBody := Some body; getResource := who |}.


(** ** Sample rules and texts *)

(** Two rules that answer any text holding [hello], and count their
    calls in the bot; one that matches the same text and declines. *)
Definition answering (addressee : option string) (answer : string)
  : Rule nat :=
  Build_Rule [Lit "bye"; Lit "hello"] addressee
             (fun bot _ _ _ => (Some answer, S bot)).

Definition declining (addressee : option string) : Rule nat :=
  Build_Rule [Lit "hello"] addressee (fun bot _ _ _ => (None, S bot)).

(** The text [quiet zbot], a newline, [okay]. *)
Definition quiet_then_okay_lines : string :=
  String.append "quiet zbot" (String newline "okay").

(** ** Registration, sequences of dispatches, and notions used in the
    statements *)


(** Successive calls of [handle_groupchat_message], one for each
    incoming stanza with the clock reading of its dispatch: the bot at
    the end and the texts sent, in order. *)
Fixpoint handle_all (self : ChatBot) (events : list (Z * Message))
  : ChatBot * list string :=
  match events with
  | [] => (self, [])
  | (now, message) :: events' =>
      let (self', reply) := handle_groupchat_message self now message in
      let (self'', replies) := handle_all self' events' in
      (self'',
       match reply with Some r => r :: replies | None => replies end)
  end.

(** The characters of a string before its first whitespace. *)
Fixpoint before_space (s : string) : string :=
  match s with
  | EmptyString => EmptyString
  | String c s' => if is_space c then EmptyString
                   else String c (before_space s')
  end.

(** The ways a dispatch can end, each with the conditions the method
    tests on the way: still in the startup delay; the body does not
    decode; the sender is ignored; a control rule answers; the
    [me_responds] table answers; the gates are reached. *)
Inductive dispatched (self : ChatBot) (now : Z) (message : Message)
  : ChatBot * option string -> Prop :=
| in_startup :
    past_startup self now = None ->
    dispatched self now message (self, None)
| undecoded (self1 : ChatBot) :
    past_startup self now = Some self1 ->
    decode_body message = None ->
    dispatched self now message (self1, None)
| ignored (self1 : ChatBot) (msgbody : string) :
    past_startup self now = Some self1 ->
    decode_body message = Some msgbody ->
    contains (lower (getResource message)) (ignore_from self) = true ->
    dispatched self now message
               (with_curr_message (Some (lower msgbody)) self1, None)
| by_rule (self1 : ChatBot) (msgbody : string)
          (out : option string) (self2 : ChatBot) :
    past_startup self now = Some self1 ->
    decode_body message = Some msgbody ->
    contains (lower (getResource message)) (ignore_from self) = false ->
    addressed (my_names self) (lower msgbody) = true ->
    get_response (me_responder now)
                 (with_curr_message (Some (lower msgbody)) self1)
                 (lower msgbody)
                 (sub decoration EmptyString (getResource message))
    = (out, self2) ->
    truthy out = true ->
    dispatched self now message (send_to_chat self2 (text_of out))
| by_table (self1 : ChatBot) (msgbody : string) (response : template) :
    past_startup self now = Some self1 ->
    decode_body message = Some msgbody ->
    contains (lower (getResource message)) (ignore_from self) = false ->
    addressed (my_names self) (lower msgbody) = true ->
    search true quiet_expression (lower msgbody) = None ->
    search true okay_expression (lower msgbody) = None ->
    search true enough_expression (lower msgbody) = None ->
    silent self = false ->
    first_response (me_responds self) (lower msgbody) = Some response ->
    dispatched self now message
               (send_to_chat
                  (with_curr_message (Some (lower msgbody)) self1)
                  (format response
                     (sub decoration EmptyString (getResource message))))
| at_gates (self1 : ChatBot) (msgbody : string) :
    past_startup self now = Some self1 ->
    decode_body message = Some msgbody ->
    contains (lower (getResource message)) (ignore_from self) = false ->
    dispatched self now message
               (gates (with_curr_message (Some (lower msgbody)) self1) now).

(* ================================================================== *)
(** * Properties *)

Unset Implicit Arguments.

(** ** The resolvers *)

Section ResolverFacts.

Variable Bot : Type.
Implicit Types (self pre mid post : list (Rule Bot)) (bot : Bot).
Implicit Types (text user : string) (target : option string).

(** Expressions that do not match are passed over. *)
Lemma try_expressions_skip (func : Handler Bot) es es' bot text user :
  Forall (fun e => search true e text = None) es ->
  try_expressions func (es ++ es') bot text user
  = try_expressions func es' bot text user.
Proof.
  induction 1 as [|e es He _ IH]; simpl; [reflexivity|].
  now rewrite He.
Qed.

(** One eligible rule, then the rest of the registry. *)
Lemma resolve_cons target (response : Rule Bot) self bot text user :
  eligible target response = true ->
  resolve target (response :: self) bot text user
  = let (r, bot') :=
      try_expressions (call response) (expressions response)
                      bot text user in
    if truthy r then (r, bot') else resolve target self bot' text user.
Proof.
  destruct target as [t|]; simpl; intros E.
  - now rewrite E.
  - destruct (only_for response); [discriminate|reflexivity].
Qed.

(** A rule that is not eligible is passed over. *)
Lemma resolve_cons_skip target (response : Rule Bot) self bot text user :
  eligible target response = false ->
  resolve target (response :: self) bot text user
  = resolve target self bot text user.
Proof.
  destruct target as [t|]; simpl; intros E.
  - now rewrite E.
  - destruct (only_for response); [reflexivity|discriminate].
Qed.

(** Resolution over a registry split in two: the second part is
    reached exactly when the first gives nothing. *)
Lemma resolve_app target pre self bot text user :
  resolve target (pre ++ self) bot text user
  = let (r, bot') := resolve target pre bot text user in
    if truthy r then (r, bot') else resolve target self bot' text user.
Proof.
  revert bot; induction pre as [|response pre IH]; intros bot.
  - destruct target; reflexivity.
  - rewrite <- app_comm_cons.
    destruct (eligible target response) eqn:E.
    + rewrite !resolve_cons by assumption.
      destruct (try_expressions _ _ _ _ _) as [r bot'].
      destruct (truthy r) eqn:T; [now rewrite T|apply IH].
    + rewrite !resolve_cons_skip by assumption. apply IH.
Qed.

(** The rule reached first: the expressions before its first match
    are passed over and the handler runs on that match. *)
Lemma resolve_reaches target pre (response : Rule Bot) self
      bot rpre b1 text user es e es' m :
  resolve target pre bot text user = (rpre, b1) ->
  truthy rpre = false ->
  eligible target response = true ->
  expressions response = es ++ e :: es' ->
  Forall (fun e => search true e text = None) es ->
  search true e text = Some m ->
  resolve target (pre ++ response :: self) bot text user
  = let (out, b1') := call response b1 m text user in
    if truthy out then (out, b1')
    else
      let (r, b1'') := try_expressions (call response) es' b1' text user in
      if truthy r then (r, b1'')
      else resolve target self b1'' text user.
Proof.
  intros Hpre Tpre Hel Hex Hes Hm.
  rewrite resolve_app, Hpre, Tpre.
  rewrite resolve_cons by assumption.
  rewrite Hex, try_expressions_skip by assumption.
  simpl try_expressions. rewrite Hm.
  destruct (call response b1 m text user) as [out b1'].
  destruct (truthy out) eqn:T; [now rewrite T|].
  reflexivity.
Qed.

(** C1.  Resolver precedence, for [get_response] ([target = None]) and
    for [get_personal_response] ([target = Some t]).  [R1] is
    registered before [R2], both pass the resolver's test on rules, and
    both have an expression that matches the text: [e1] is the first
    such expression of [R1], [e2] of [R2].  The rules registered before
    [R1] give [rpre] and leave the bot as [b1]; on [e1]'s match
    [R1]'s handler answers [out1].
    - When a rule before [R1] gave true text, that is the result:
      neither [R1] nor [R2] is asked.
    - Otherwise, when [out1] is true text, it is the result, with the
      bot as [R1]'s handler left it, whatever [R2] and the other later
      rules are: [R2]'s handler does not run.
    - When [out1] is empty or [None], resolution goes on with the
      remaining expressions of [R1] and then with the later rules.
    - When those remaining expressions and the rules between [R1] and
      [R2] give nothing either, [R2]'s handler runs on [e2]'s match,
      and its answer, when true text, is the result. *)
Theorem resolver_precedence :
  forall target pre mid post (R1 R2 : Rule Bot) bot rpre b1 b1' text user
         es1 e1 es1' m1 out1 es2 e2 es2' m2,
    eligible target R1 = true ->
    eligible target R2 = true ->
    expressions R1 = es1 ++ e1 :: es1' ->
    Forall (fun e => search true e text = None) es1 ->
    search true e1 text = Some m1 ->
    expressions R2 = es2 ++ e2 :: es2' ->
    Forall (fun e => search true e text = None) es2 ->
    search true e2 text = Some m2 ->
    resolve target pre bot text user = (rpre, b1) ->
    call R1 b1 m1 text user = (out1, b1') ->
    let registry := pre ++ R1 :: mid ++ R2 :: post in
    (truthy rpre = true ->
     resolve target registry bot text user = (rpre, b1))
    /\ (truthy rpre = false -> truthy out1 = true ->
        resolve target registry bot text user = (out1, b1'))
    /\ (truthy rpre = false -> truthy out1 = false ->
        resolve target registry bot text user
        = let (r, b) := try_expressions (call R1) es1' b1' text user in
          if truthy r then (r, b)
          else resolve target (mid ++ R2 :: post) b text user)
    /\ (truthy rpre = false -> truthy out1 = false ->
        forall b1'' b2 out2 b2',
          try_expressions (call R1) es1' b1' text user = (None, b1'') ->
          resolve target mid b1'' text user = (None, b2) ->
          call R2 b2 m2 text user = (out2, b2') ->
          truthy out2 = true ->
          resolve target registry bot text user = (out2, b2')).
Proof.
  intros target pre mid post R1 R2 bot rpre b1 b1' text user
         es1 e1 es1' m1 out1 es2 e2 es2' m2
         El1 El2 Ex1 No1 M1 Ex2 No2 M2 Hpre Hcall registry.
  assert (Hreg : truthy rpre = false ->
                 resolve target registry bot text user
                 = if truthy out1 then (out1, b1')
                   else
                     let (r, b) :=
                       try_expressions (call R1) es1' b1' text user in
                     if truthy r then (r, b)
                     else resolve target (mid ++ R2 :: post) b text user).
  { intros Tpre. unfold registry.
    rewrite resolve_reaches
      with (rpre := rpre) (b1 := b1) (es := es1) (e := e1) (es' := es1')
           (m := m1)
      by assumption.
    now rewrite Hcall. }
  split; [|split; [|split]].
  - intros T. unfold registry. now rewrite resolve_app, Hpre, T.
  - intros Tpre T. now rewrite Hreg, T.
  - intros Tpre T. now rewrite Hreg, T.
  - intros Tpre T b1'' b2 out2 b2' Hrest Hmid Hcall2 T2.
    rewrite Hreg, T, Hrest by assumption; simpl truthy; cbv iota.
    rewrite resolve_reaches
      with (rpre := @None string) (b1 := b2) (es := es2) (e := e2)
           (es' := es2') (m := m2)
      by (assumption || reflexivity).
    rewrite Hcall2.
    now rewrite T2.
Qed.

End ResolverFacts.

Lemma resolver_precedence_witness :
  get_response
    [declining None; answering None "one"; answering None "two"]
    0 "hello there" "al"
  = (Some "one", 2)
  /\ get_personal_response
       [declining (Some "Bob"); answering (Some "bob") "two"]
       0 "hello there" "al" "BOB"
     = (Some "two", 2).
Proof.
  split.
  - refine (proj1 (proj2 (resolver_precedence nat None [declining None] [] []
                     (answering None "one") (answering None "two")
                     0 None 1 2 "hello there" "al"
                     [Lit "bye"] (Lit "hello") [] (Build_Match 0 5)
                     (Some "one")
                     [Lit "bye"] (Lit "hello") [] (Build_Match 0 5)
                     eq_refl eq_refl eq_refl _ eq_refl eq_refl _ eq_refl
                     eq_refl eq_refl)) eq_refl eq_refl);
      repeat constructor.
  - refine (proj2 (proj2 (proj2 (resolver_precedence nat (Some "BOB") [] [] []
                     (declining (Some "Bob")) (answering (Some "bob") "two")
                     0 None 0 1 "hello there" "al"
                     [] (Lit "hello") [] (Build_Match 0 5)
                     None
                     [Lit "bye"] (Lit "hello") [] (Build_Match 0 5)
                     eq_refl eq_refl eq_refl _ eq_refl eq_refl _ eq_refl
                     eq_refl eq_refl)))
                  eq_refl eq_refl 1 1 (Some "two") 2
                  eq_refl eq_refl eq_refl eq_refl);
      repeat constructor.
Defined.

(** ** The dispatcher: bookkeeping lemmas *)

Lemma gates_no_reply self now : snd (gates self now) = None.
Proof.
  unfold gates.
  destruct (silent self); [reflexivity|].
  destruct (timeout self) as [t|]; [|reflexivity].
  now destruct (now <? t)%Z.
Qed.

(** The three control rules, read off the registry: the first of the
    three expressions found in the text decides. *)
Lemma me_responder_answer now self text user :
  get_response (me_responder now) self text user
  = match search true quiet_expression text with
    | Some m => start_silence self m text user
    | None =>
        match search true okay_expression text with
        | Some m => end_silence self m text user
        | None =>
            match search true enough_expression text with
            | Some m => set_timeout now self m text user
            | None => (None, self)
            end
        end
    end.
Proof.
  unfold me_responder, get_response, try_expressions; cbn [only_for expressions call].
  destruct (search true quiet_expression text); [reflexivity|].
  destruct (search true okay_expression text); [reflexivity|].
  destruct (search true enough_expression text); reflexivity.
Qed.

(** A control rule that answers gives true text. *)
Lemma me_responder_truthy now self text user :
  fst (get_response (me_responder now) self text user) = None
  \/ truthy (fst (get_response (me_responder now) self text user)) = true.
Proof.
  rewrite me_responder_answer.
  destruct (search true quiet_expression text); [now right|].
  destruct (search true okay_expression text); [now right|].
  destruct (search true enough_expression text); [now right|now left].
Qed.

(** The control rules leave the message bookkeeping, the startup mark
    and the [me_responds] table alone. *)
Lemma me_responder_frame now self text user :
  let self' := snd (get_response (me_responder now) self text user) in
  curr_message self' = curr_message self
  /\ prev_message self' = prev_message self
  /\ me_responds self' = me_responds self
  /\ startup self' = startup self.
Proof.
  rewrite me_responder_answer.
  destruct (search true quiet_expression text); [now repeat split|].
  destruct (search true okay_expression text); [now repeat split|].
  destruct (search true enough_expression text); now repeat split.
Qed.

(** ** C6: the startup delay *)

(** C6.  Startup grace: after the session (re)starts at [t0], a message
    handled before [t0] plus one minute is discarded whatever it holds:
    nothing is sent and the bot is left exactly as it was. *)
Theorem startup_grace :
  forall self t0 me chat now message,
    (now < t0 + minutes 1)%Z ->
    handle_groupchat_message (reload t0 me chat self) now message
    = (reload t0 me chat self, None).
Proof.
  intros self t0 me chat now message H.
  unfold handle_groupchat_message, past_startup; cbn [reload with_tables with_startup startup].
  apply Z.ltb_lt in H. now rewrite H.
Qed.

Lemma startup_grace_witness :
  handle_groupchat_message (reload 0 [] [] (fresh ["zbot"] [] []))
                           59999999 (says "Alice" "quiet zbot")
  = (reload 0 [] [] (fresh ["zbot"] [] []), None).
Proof.
  apply startup_grace. reflexivity.
Defined.

(** ** C8: a body that does not decode *)

(** C8.  Malformed input: when the body of the message cannot be
    decoded, nothing is sent and [curr_message], [prev_message],
    [silent] and [timeout] are as before. *)
Theorem undecodable_dropped :
  forall self now message,
    decode_body message = None ->
    let result := handle_groupchat_message self now message in
    snd result = None
    /\ curr_message (fst result) = curr_message self
    /\ prev_message (fst result) = prev_message self
    /\ silent (fst result) = silent self
    /\ timeout (fst result) = timeout self.
Proof.
  intros self now message H.
  unfold handle_groupchat_message, past_startup.
  destruct (startup self) as [s|].
  - destruct (now <? s)%Z; [now repeat split|].
    rewrite H. now repeat split.
  - rewrite H. now repeat split.
Qed.

Lemma undecodable_dropped_witness :
  let result :=
    handle_groupchat_message (fresh ["zbot"] [] []) 0
                             (says "Alice" (String (ascii_of_nat 233) "quiet zbot")) in
  snd result = None
  /\ curr_message (fst result) = Some EmptyString
  /\ prev_message (fst result) = Some EmptyString
  /\ silent (fst result) = false
  /\ timeout (fst result) = None.
Proof.
  apply (@undecodable_dropped (fresh ["zbot"] [] []) 0%Z
           (says "Alice" (String (ascii_of_nat 233) "quiet zbot"))).
  reflexivity.
Defined.

(** The startup check lets the bot through as it is, but for the
    startup mark. *)
Lemma past_startup_frame self now self1 :
  past_startup self now = Some self1 ->
  self1 = self \/ self1 = with_startup None self.
Proof.
  unfold past_startup.
  destruct (startup self) as [s|].
  - destruct (now <? s)%Z; [discriminate|].
    intros [= <-]. now right.
  - intros [= <-]. now left.
Qed.

(** Past the startup check the mark is gone. *)
Lemma past_startup_cleared self now self1 :
  past_startup self now = Some self1 -> startup self1 = None.
Proof.
  unfold past_startup.
  destruct (startup self) as [s|] eqn:E.
  - destruct (now <? s)%Z; [discriminate|]. now intros [= <-].
  - now intros [= <-].
Qed.

Ltac frame_startup H :=
  let E := fresh "E" in
  destruct (past_startup_frame _ _ _ H) as [E|E]; subst.

(** The dispatch of a message that is past the startup delay and whose
    body decodes. *)
Lemma handle_processed self self1 now message msgbody :
  past_startup self now = Some self1 ->
  decode_body message = Some msgbody ->
  handle_groupchat_message self now message
  = let msgtext := lower msgbody in
    let bot := with_curr_message (Some msgtext) self1 in
    if contains (lower (getResource message)) (ignore_from self)
    then (bot, None)
    else if addressed (my_names self) msgtext
         then spoken_to bot now msgtext (sub decoration EmptyString (getResource message))
         else gates bot now.
Proof.
  intros Hs Hd. unfold handle_groupchat_message. rewrite Hs, Hd.
  frame_startup Hs; reflexivity.
Qed.

(** ** C9: senders on the ignore list *)

(** C9, as the code has it.  The text is recorded in [curr_message]
    (line 193) before the sender is looked up in the ignore list
    (line 196).  For a message past the startup delay, with a body that
    decodes, from a sender whose lowercased identifier is on the list:
    nothing is sent; [prev_message], [silent] and [timeout] are as
    before; [curr_message] holds the lowercased body. *)
Theorem ignored_sender_recorded :
  forall self self1 now message msgbody,
    past_startup self now = Some self1 ->
    decode_body message = Some msgbody ->
    contains (lower (getResource message)) (ignore_from self) = true ->
    let result := handle_groupchat_message self now message in
    snd result = None
    /\ curr_message (fst result) = Some (lower msgbody)
    /\ prev_message (fst result) = prev_message self
    /\ silent (fst result) = silent self
    /\ timeout (fst result) = timeout self.
Proof.
  intros self self1 now message msgbody Hs Hd Hi.
  unfold handle_groupchat_message. rewrite Hs, Hd.
  frame_startup Hs; cbn [ignore_from with_curr_message with_prev_curr with_startup];
    rewrite Hi; now repeat split.
Qed.

Lemma ignored_sender_recorded_witness :
  let result :=
    handle_groupchat_message (with_ignore_from ["carol"] (fresh ["zbot"] [] []))
                             0 (says "Carol" "Quiet zbot") in
  snd result = None
  /\ curr_message (fst result) = Some "quiet zbot"
  /\ prev_message (fst result) = Some EmptyString
  /\ silent (fst result) = false
  /\ timeout (fst result) = None.
Proof.
  apply (@ignored_sender_recorded
           (with_ignore_from ["carol"] (fresh ["zbot"] [] []))
           (with_ignore_from ["carol"] (fresh ["zbot"] [] []))
           0%Z (says "Carol" "Quiet zbot") "Quiet zbot");
    reflexivity.
Defined.

(** C9, as the claim has it, fails: [bob] is on the ignore list, and
    his message changes [curr_message]. *)
Lemma ignored_sender_not_left_unchanged :
  let bot := with_ignore_from ["bob"] (fresh ["zbot"] [] []) in
  let result := handle_groupchat_message bot 0 (says "bob" "hello") in
  contains "bob" (ignore_from bot) = true
  /\ curr_message bot = Some EmptyString
  /\ curr_message (fst result) = Some "hello"
  /\ curr_message (fst result) <> curr_message bot.
Proof.
  cbv zeta. repeat split; try reflexivity.
  vm_compute. discriminate.
Qed.

(** ** C5: messages that do not name the bot *)

Lemma update_message_state_tables me chat self :
  update_message_state (with_tables me chat self)
  = with_tables me chat (update_message_state self).
Proof.
  unfold update_message_state; cbn [with_tables curr_message].
  now destruct (truthy (curr_message self)).
Qed.

Lemma gates_tables me chat self now :
  gates (with_tables me chat self) now
  = (with_tables me chat (fst (gates self now)), None).
Proof.
  unfold gates; cbn [with_tables silent timeout].
  destruct (silent self).
  - now rewrite update_message_state_tables.
  - destruct (timeout self) as [t|]; [|reflexivity].
    destruct (now <? t)%Z; [|reflexivity].
    now rewrite update_message_state_tables.
Qed.

Lemma past_startup_tables me chat self now :
  past_startup (with_tables me chat self) now
  = option_map (with_tables me chat) (past_startup self now).
Proof.
  unfold past_startup; cbn [with_tables startup].
  destruct (startup self) as [s|]; [|reflexivity].
  now destruct (now <? s)%Z.
Qed.

(** C5.  A message whose lowercased body does not name the bot gets no
    reply, and neither response table has a part in what happens: with
    any other tables [me] and [chat] in place of the loaded ones, the
    dispatch ends in the same bot (tables apart) and sends nothing. *)
Theorem not_addressed_no_reply :
  forall self now message msgbody,
    decode_body message = Some msgbody ->
    addressed (my_names self) (lower msgbody) = false ->
    snd (handle_groupchat_message self now message) = None
    /\ forall me chat,
        handle_groupchat_message (with_tables me chat self) now message
        = (with_tables me chat
             (fst (handle_groupchat_message self now message)), None).
Proof.
  intros self now message msgbody Hd Ha.
  split.
  - destruct (past_startup self now) as [self1|] eqn:Hs.
    + rewrite (handle_processed _ _ _ _ _ Hs Hd); cbv zeta. rewrite Ha.
      destruct (contains _ _); [reflexivity|apply gates_no_reply].
    + unfold handle_groupchat_message. now rewrite Hs.
  - intros me chat.
    pose proof (past_startup_tables me chat self now) as Ht.
    destruct (past_startup self now) as [self1|] eqn:Hs; cbn [option_map] in Ht.
    + rewrite (handle_processed _ _ _ _ _ Ht Hd), (handle_processed _ _ _ _ _ Hs Hd).
      cbv zeta; cbn [ignore_from my_names with_tables]. rewrite Ha.
      destruct (contains _ _); [reflexivity|].
      apply (gates_tables me chat (with_curr_message (Some (lower msgbody)) self1)).
    + unfold handle_groupchat_message. now rewrite Ht, Hs.
Qed.

Lemma not_addressed_no_reply_witness :
  snd (handle_groupchat_message
         (fresh ["zbot"] [] [(Lit "hello", [Text "hi "; Field0; Text "!"])])
         0 (says "Bob" "hello everyone"))
  = None.
Proof.
  apply (proj1 (@not_addressed_no_reply
                  (fresh ["zbot"] [] [(Lit "hello", [Text "hi "; Field0; Text "!"])])
                  0%Z (says "Bob" "hello everyone") "hello everyone"
                  eq_refl eq_refl)).
Defined.

(** ** C10: a bot without names *)

(** With no names the expression of line 204 is [\b()\b]: it matches at
    a position exactly when [\b] does. *)
Lemma ends_no_names k :
  ends false (names_expression []) k = guard (at_boundary k) k.
Proof.
  unfold names_expression; cbn [map Alts ends flat_map].
  unfold guard. destruct (at_boundary k) eqn:B; [|reflexivity].
  cbn [flat_map ends app]. unfold guard. now rewrite B.
Qed.

(** The scan for [\b()\b] succeeds exactly when a word character is
    behind the position or anywhere ahead of it. *)
Lemma scan_no_names i prev rest :
  found (scan false (names_expression []) i prev rest)
  = word_before (prev, rest) || existsb is_word rest.
Proof.
  revert i prev; induction rest as [|c rest IH]; intros i prev;
    cbn [scan]; rewrite ends_no_names;
    unfold guard, at_boundary, word_before, word_after;
    cbn [fst snd existsb].
  - destruct prev as [p|]; [|reflexivity].
    now destruct (is_word p).
  - destruct (xorb _ _) eqn:X.
    + destruct prev as [p|]; [destruct (is_word p)|]; destruct (is_word c);
        try discriminate; reflexivity.
    + rewrite IH; unfold word_before; cbn [fst].
      destruct prev as [p|]; [destruct (is_word p)|]; destruct (is_word c);
        try discriminate; reflexivity.
Qed.

Lemma is_word_lower_char c : is_word (lower_char c) = is_word c.
Proof.
  destruct c as [[] [] [] [] [] [] [] []]; reflexivity.
Qed.

Lemma existsb_is_word_lower s :
  existsb is_word (list_ascii_of_string (lower s))
  = existsb is_word (list_ascii_of_string s).
Proof.
  induction s as [|c s IH]; [reflexivity|].
  cbn [lower list_ascii_of_string existsb].
  now rewrite is_word_lower_char, IH.
Qed.

(** A bot without names takes a text as spoken to it exactly when the
    text holds a word character. *)
Lemma addressed_no_names text :
  addressed [] text = existsb is_word (list_ascii_of_string text).
Proof.
  unfold addressed, search. now rewrite scan_no_names.
Qed.

(** C10.  When [my_names] is empty, a message whose body holds at least
    one word character is taken as spoken to the bot, and (past the
    startup delay, from a sender not ignored) its dispatch is the block
    of line 204: the control rules, then the [me_responds] table. *)
Theorem no_names_addresses_every_word :
  forall self now message msgbody,
    my_names self = [] ->
    decode_body message = Some msgbody ->
    existsb is_word (list_ascii_of_string msgbody) = true ->
    addressed (my_names self) (lower msgbody) = true
    /\ forall self1,
        past_startup self now = Some self1 ->
        contains (lower (getResource message)) (ignore_from self) = false ->
        handle_groupchat_message self now message
        = spoken_to (with_curr_message (Some (lower msgbody)) self1)
                    now (lower msgbody)
                    (sub decoration EmptyString (getResource message)).
Proof.
  intros self now message msgbody Hn Hd Hw.
  assert (Ha : addressed (my_names self) (lower msgbody) = true).
  { now rewrite Hn, addressed_no_names, existsb_is_word_lower. }
  split; [exact Ha|].
  intros self1 Hs Hi.
  rewrite (handle_processed _ _ _ _ _ Hs Hd); cbv zeta.
  now rewrite Hi, Ha.
Qed.

Lemma no_names_addresses_every_word_witness :
  addressed [] "hello everyone" = true
  /\ handle_groupchat_message
       (fresh [] [(Lit "hello", [Text "hi "; Field0; Text "!"])] [])
       0 (says "Bob" "Hello everyone")
     = spoken_to
         (with_curr_message (Some "hello everyone")
            (fresh [] [(Lit "hello", [Text "hi "; Field0; Text "!"])] []))
         0 "hello everyone" "Bob".
Proof.
  pose proof (@no_names_addresses_every_word
                (fresh [] [(Lit "hello", [Text "hi "; Field0; Text "!"])] [])
                0%Z (says "Bob" "Hello everyone") "Hello everyone"
                eq_refl eq_refl eq_refl) as [H1 H2].
  split; [exact H1|].
  exact (H2 _ eq_refl eq_refl).
Defined.

(** ** C7: the message bookkeeping *)

(** [update_message_state] on a bot whose current message is true text. *)
Lemma update_message_state_shifts self text :
  curr_message self = Some text ->
  truthy (Some text) = true ->
  curr_message (update_message_state self) = None
  /\ prev_message (update_message_state self) = Some text.
Proof.
  intros Hc Ht. unfold update_message_state. rewrite Hc, Ht.
  now split.
Qed.

(** What the gates do to the bookkeeping: the shift, when one of them
    stops the dispatch. *)
Lemma gates_shift self now text :
  curr_message self = Some text ->
  truthy (Some text) = true ->
  silent self = true \/ (exists t, timeout self = Some t /\ (now < t)%Z) ->
  curr_message (fst (gates self now)) = None
  /\ prev_message (fst (gates self now)) = Some text.
Proof.
  intros Hc Ht Hg. unfold gates.
  destruct (silent self) eqn:S; cbn [fst].
  - now apply update_message_state_shifts.
  - destruct Hg as [Hg|[t [Hg Hlt]]]; [discriminate|].
    rewrite Hg. apply Z.ltb_lt in Hlt. rewrite Hlt; cbn [fst].
    now apply update_message_state_shifts.
Qed.

(** C7, as the code has it.  [update_message_state] runs on the exits
    that send a reply and on the exits at the silence gate and at the
    gate of a pending timeout.  For a message past the startup delay,
    with a body that decodes to a non-empty text, from a sender not
    ignored: when the dispatch sends a reply, or the bot is silent, or
    its timeout has not expired, it ends with [curr_message] cleared
    and [prev_message] holding the lowercased text. *)
Theorem bookkeeping_on_reply_or_gate :
  forall self self1 now message msgbody,
    past_startup self now = Some self1 ->
    decode_body message = Some msgbody ->
    truthy (Some (lower msgbody)) = true ->
    contains (lower (getResource message)) (ignore_from self) = false ->
    let result := handle_groupchat_message self now message in
    (snd result <> None
     \/ silent self = true
     \/ exists t, timeout self = Some t /\ (now < t)%Z) ->
    curr_message (fst result) = None
    /\ prev_message (fst result) = Some (lower msgbody).
Proof.
  intros self self1 now message msgbody Hs Hd Ht Hi.
  rewrite (handle_processed _ _ _ _ _ Hs Hd); cbv zeta. rewrite Hi.
  set (msgtext := lower msgbody) in *.
  set (nicefrom := sub decoration EmptyString (getResource message)).
  set (bot := with_curr_message (Some msgtext) self1).
  assert (Hc : curr_message bot = Some msgtext) by reflexivity.
  assert (Hsil : silent bot = silent self) by (frame_startup Hs; reflexivity).
  assert (Htim : timeout bot = timeout self) by (frame_startup Hs; reflexivity).
  assert (Hgate : snd (gates bot now) <> None
                  \/ silent self = true
                  \/ (exists t, timeout self = Some t /\ (now < t)%Z) ->
                  curr_message (fst (gates bot now)) = None
                  /\ prev_message (fst (gates bot now)) = Some msgtext).
  { intros [H|H]; [now rewrite gates_no_reply in H|].
    apply gates_shift; [assumption..|]. now rewrite Hsil, Htim. }
  destruct (addressed (my_names self) msgtext); [|exact Hgate].
  unfold spoken_to. rewrite me_responder_answer.
  destruct (search true quiet_expression msgtext);
    [intros _; now apply update_message_state_shifts|].
  destruct (search true okay_expression msgtext);
    [intros _; now apply update_message_state_shifts|].
  destruct (search true enough_expression msgtext);
    [intros _; now apply update_message_state_shifts|].
  cbn [truthy].
  destruct (silent bot) eqn:S;
    [intros _; now apply update_message_state_shifts|].
  destruct (first_response (me_responds bot) msgtext);
    [intros _; now apply update_message_state_shifts|].
  exact Hgate.
Qed.

Lemma bookkeeping_on_reply_or_gate_witness :
  let result :=
    handle_groupchat_message (with_silent true (fresh ["zbot"] [] []))
                             0 (says "Bob" "Hello everyone") in
  curr_message (fst result) = None
  /\ prev_message (fst result) = Some "hello everyone".
Proof.
  apply (@bookkeeping_on_reply_or_gate
           (with_silent true (fresh ["zbot"] [] []))
           (with_silent true (fresh ["zbot"] [] []))
           0%Z (says "Bob" "Hello everyone") "Hello everyone"
           eq_refl eq_refl eq_refl eq_refl).
  right; left; reflexivity.
Defined.

(** C7, as the claim has it, fails: [Dave] is on the ignore list; the
    dispatch of his message records it in [curr_message] and returns,
    so that [curr_message] is not cleared and [prev_message] does not
    hold the text. *)
Lemma ignored_message_is_not_shifted :
  let bot := with_ignore_from ["dave"] (fresh ["zbot"] [] []) in
  let result := handle_groupchat_message bot 0 (says "Dave" "hi all") in
  curr_message (fst result) = Some "hi all"
  /\ prev_message (fst result) = Some EmptyString
  /\ curr_message (fst result) <> None
  /\ prev_message (fst result) <> Some "hi all".
Proof.
  cbv zeta. repeat split; try reflexivity; vm_compute; discriminate.
Qed.

(** ** C4: the quiet / okay scenario *)

Lemma silent_update_message_state self :
  silent (update_message_state self) = silent self.
Proof.
  unfold update_message_state. now destruct (truthy (curr_message self)).
Qed.

Lemma timeout_update_message_state self :
  timeout (update_message_state self) = timeout self.
Proof.
  unfold update_message_state. now destruct (truthy (curr_message self)).
Qed.

(** C4, as the code has it.  The expressions of the two rules are
    anchored at the start of a line, so the command comes first and the
    name after it.  A bot named [zbot], past its startup delay, that
    does not ignore [alice_desktop]: [quiet zbot] from [Alice_Desktop]
    is answered [sorry. i'll put a lid on it.] and leaves the bot
    silent; the next message [okay zbot] is answered
    [thanks, alice_desktop] and leaves the bot not silent, with no
    timeout. *)
Theorem quiet_then_okay :
  forall self self1 now1 now2,
    my_names self = ["zbot"] ->
    past_startup self now1 = Some self1 ->
    contains "alice_desktop" (ignore_from self) = false ->
    let first :=
      handle_groupchat_message self now1 (says "Alice_Desktop" "quiet zbot") in
    let second :=
      handle_groupchat_message (fst first) now2
                               (says "Alice_Desktop" "okay zbot") in
    snd first = Some "sorry. i'll put a lid on it."
    /\ silent (fst first) = true
    /\ snd second = Some "thanks, alice_desktop"
    /\ silent (fst second) = false
    /\ timeout (fst second) = None.
Proof.
  intros self self1 now1 now2 Hn Hs Hi.
  assert (H1 : handle_groupchat_message self now1 (says "Alice_Desktop" "quiet zbot")
               = send_to_chat
                   (with_silent true (with_curr_message (Some "quiet zbot") self1))
                   "sorry. i'll put a lid on it.").
  { rewrite (handle_processed _ _ _ (says "Alice_Desktop" "quiet zbot") "quiet zbot" Hs eq_refl).
    cbv zeta.
    change (lower (getResource (says "Alice_Desktop" "quiet zbot")))
      with "alice_desktop".
    change (lower "quiet zbot") with "quiet zbot".
    rewrite Hi, Hn.
    change (addressed ["zbot"] "quiet zbot") with true; cbv iota.
    unfold spoken_to. rewrite me_responder_answer. reflexivity. }
  cbv zeta. rewrite H1. cbn [send_to_chat fst snd].
  set (bot := update_message_state _).
  assert (Hb : my_names bot = ["zbot"] /\ startup bot = None
               /\ ignore_from bot = ignore_from self /\ silent bot = true).
  { pose proof (past_startup_cleared _ _ _ Hs) as Hc.
    unfold bot, update_message_state;
      cbn [curr_message with_silent with_curr_message with_prev_curr truthy].
    frame_startup Hs; repeat split; assumption || reflexivity. }
  destruct Hb as (Bn & Bs & Bi & Bq).
  assert (H2 : handle_groupchat_message bot now2 (says "Alice_Desktop" "okay zbot")
               = send_to_chat
                   (with_timeout None
                      (with_silent false (with_curr_message (Some "okay zbot") bot)))
                   "thanks, alice_desktop").
  { assert (Hs2 : past_startup bot now2 = Some bot)
      by (unfold past_startup; now rewrite Bs).
    rewrite (handle_processed _ _ _ (says "Alice_Desktop" "okay zbot") "okay zbot" Hs2 eq_refl).
    cbv zeta.
    change (lower (getResource (says "Alice_Desktop" "okay zbot")))
      with "alice_desktop".
    change (lower "okay zbot") with "okay zbot".
    rewrite Bi, Hi, Bn.
    change (addressed ["zbot"] "okay zbot") with true; cbv iota.
    unfold spoken_to. rewrite me_responder_answer. reflexivity. }
  rewrite H2. cbn [send_to_chat fst snd].
  rewrite silent_update_message_state, timeout_update_message_state.
  now repeat split.
Qed.

Lemma quiet_then_okay_witness :
  let first :=
    handle_groupchat_message (fresh ["zbot"] [] []) 0
                             (says "Alice_Desktop" "quiet zbot") in
  let second :=
    handle_groupchat_message (fst first) 1 (says "Alice_Desktop" "okay zbot") in
  snd first = Some "sorry. i'll put a lid on it."
  /\ silent (fst first) = true
  /\ snd second = Some "thanks, alice_desktop"
  /\ silent (fst second) = false
  /\ timeout (fst second) = None.
Proof.
  exact (@quiet_then_okay (fresh ["zbot"] [] []) (fresh ["zbot"] [] [])
           0%Z 1%Z eq_refl eq_refl eq_refl).
Defined.

(** C4, as the claim has it, fails: neither [zbot quiet] nor [zbot okay]
    starts with its command, so no control rule matches; the first
    message gets no reply and leaves the bot as talkative as before,
    and the second leaves a silent bot silent. *)
Lemma name_first_commands_are_not_heard :
  let bot := fresh ["zbot"] [] [] in
  let first :=
    handle_groupchat_message bot 0 (says "Alice_Desktop" "zbot quiet") in
  let second :=
    handle_groupchat_message (with_silent true bot) 0
                             (says "Alice_Desktop" "zbot okay") in
  search true quiet_expression "zbot quiet" = None
  /\ snd first = None
  /\ silent (fst first) = false
  /\ search true okay_expression "zbot okay" = None
  /\ snd second = None
  /\ silent (fst second) = true.
Proof.
  cbv zeta. repeat split; reflexivity.
Qed.

(** ** C2: the silence gate *)

(** The block of line 204 on a silent bot does not look at the tables. *)
Lemma spoken_to_silent_tables me chat self now msgtext nicefrom :
  silent self = true ->
  spoken_to (with_tables me chat self) now msgtext nicefrom
  = (with_tables me chat (fst (spoken_to self now msgtext nicefrom)),
     snd (spoken_to self now msgtext nicefrom)).
Proof.
  intros S. unfold spoken_to. rewrite !me_responder_answer.
  destruct (search true quiet_expression msgtext);
    [|destruct (search true okay_expression msgtext);
      [|destruct (search true enough_expression msgtext)]];
    destruct self as [names ign prev curr tmo sil stp me0 chat0];
    cbn [silent] in S; subst sil;
    destruct curr as [[|c curr]|]; reflexivity.
Qed.

(** The dispatch of a message by a silent bot does not look at the
    tables. *)
Lemma handle_silent_tables me chat self now message :
  silent self = true ->
  handle_groupchat_message (with_tables me chat self) now message
  = (with_tables me chat (fst (handle_groupchat_message self now message)),
     snd (handle_groupchat_message self now message)).
Proof.
  intros S.
  pose proof (past_startup_tables me chat self now) as Ht.
  destruct (past_startup self now) as [self1|] eqn:Hs; cbn [option_map] in Ht.
  - destruct (decode_body message) as [msgbody|] eqn:Hd.
    + rewrite (handle_processed _ _ _ _ _ Ht Hd), (handle_processed _ _ _ _ _ Hs Hd).
      cbv zeta; cbn [ignore_from my_names with_tables].
      destruct (contains _ _); [reflexivity|].
      destruct (addressed _ _).
      * apply (spoken_to_silent_tables me chat
                 (with_curr_message (Some (lower msgbody)) self1)).
        frame_startup Hs; exact S.
      * rewrite (gates_tables me chat
                   (with_curr_message (Some (lower msgbody)) self1)).
        now rewrite gates_no_reply.
    + unfold handle_groupchat_message. now rewrite Ht, Hs, Hd.
  - unfold handle_groupchat_message. now rewrite Ht, Hs.
Qed.

Lemma silent_gates self now : silent (fst (gates self now)) = silent self.
Proof.
  unfold gates. destruct (silent self) eqn:S; cbn [fst].
  - now rewrite silent_update_message_state.
  - destruct (timeout self) as [t|]; [|exact S].
    destruct (now <? t)%Z; cbn [fst];
      [now rewrite silent_update_message_state|exact S].
Qed.

(** Only [end_silence] ends the silence. *)
Lemma handle_stays_silent self now message :
  silent self = true ->
  (forall msgbody,
      decode_body message = Some msgbody ->
      search true okay_expression (lower msgbody) = None) ->
  silent (fst (handle_groupchat_message self now message)) = true.
Proof.
  intros S Hno.
  destruct (past_startup self now) as [self1|] eqn:Hs.
  - destruct (decode_body message) as [msgbody|] eqn:Hd.
    + rewrite (handle_processed _ _ _ _ _ Hs Hd); cbv zeta.
      assert (S1 : silent (with_curr_message (Some (lower msgbody)) self1) = true)
        by (frame_startup Hs; exact S).
      destruct (contains _ _); [exact S1|].
      destruct (addressed _ _); [|now rewrite silent_gates].
      unfold spoken_to. rewrite me_responder_answer, (Hno _ eq_refl).
      destruct (search true quiet_expression _);
        [|destruct (search true enough_expression _)];
        cbn [start_silence set_timeout truthy send_to_chat fst];
        try rewrite S1; cbn [fst];
        now rewrite silent_update_message_state.
    + unfold handle_groupchat_message. rewrite Hs, Hd.
      frame_startup Hs; exact S.
  - unfold handle_groupchat_message. now rewrite Hs.
Qed.

(** A bot that is not silent answers from [me_responds] a message that
    names it, when no control rule matches the text. *)
Lemma handle_table_reply self self1 now message msgbody response :
  past_startup self now = Some self1 ->
  decode_body message = Some msgbody ->
  contains (lower (getResource message)) (ignore_from self) = false ->
  addressed (my_names self) (lower msgbody) = true ->
  fst (get_response (me_responder now)
         (with_curr_message (Some (lower msgbody)) self1)
         (lower msgbody) (sub decoration EmptyString (getResource message))) = None ->
  silent self = false ->
  first_response (me_responds self) (lower msgbody) = Some response ->
  snd (handle_groupchat_message self now message)
  = Some (format response (sub decoration EmptyString (getResource message))).
Proof.
  intros Hs Hd Hi Ha Hr S Hf.
  rewrite (handle_processed _ _ _ _ _ Hs Hd); cbv zeta. rewrite Hi, Ha.
  unfold spoken_to. rewrite me_responder_answer in *.
  destruct (search true quiet_expression _); [discriminate|].
  destruct (search true okay_expression _); [discriminate|].
  destruct (search true enough_expression _); [discriminate|].
  cbn [truthy].
  replace (silent _) with false by (frame_startup Hs; now rewrite <- S).
  replace (me_responds _) with (me_responds self) by (frame_startup Hs; reflexivity).
  now rewrite Hf.
Qed.

(** C2, as the code has it.  The silence gate.  Once [silent] is [True]:
    - no reply comes from a response table, whatever the message: with
      any other tables [me] and [chat] in place of the loaded ones the
      dispatch sends the same thing, if anything, and ends in the same
      bot (tables apart);
    - a message whose text the resume expression does not match leaves
      the bot silent;
    - a message that names the bot and is taken by the resume rule (the
      resume expression matches, the expression of the quiet rule,
      registered before it, does not) is answered [thanks, <sender>]
      and sets [silent] back to [False], with no timeout; from then on
      a message that names the bot, matches no control rule and matches
      an entry of [me_responds] is answered from that table again. *)
Theorem silence_gate :
  forall self now message,
    silent self = true ->
    let result := handle_groupchat_message self now message in
    (forall me chat,
        handle_groupchat_message (with_tables me chat self) now message
        = (with_tables me chat (fst result), snd result))
    /\ ((forall msgbody,
            decode_body message = Some msgbody ->
            search true okay_expression (lower msgbody) = None) ->
        silent (fst result) = true)
    /\ (forall self1 msgbody,
           past_startup self now = Some self1 ->
           decode_body message = Some msgbody ->
           contains (lower (getResource message)) (ignore_from self) = false ->
           addressed (my_names self) (lower msgbody) = true ->
           search true quiet_expression (lower msgbody) = None ->
           search true okay_expression (lower msgbody) <> None ->
           snd result
           = Some (String.append "thanks, "
                     (lower (sub decoration EmptyString (getResource message))))
           /\ silent (fst result) = false
           /\ timeout (fst result) = None
           /\ forall now' message' msgbody' response,
               decode_body message' = Some msgbody' ->
               contains (lower (getResource message')) (ignore_from self) = false ->
               addressed (my_names self) (lower msgbody') = true ->
               search true quiet_expression (lower msgbody') = None ->
               search true okay_expression (lower msgbody') = None ->
               search true enough_expression (lower msgbody') = None ->
               first_response (me_responds self) (lower msgbody') = Some response ->
               snd (handle_groupchat_message (fst result) now' message')
               = Some (format response
                         (sub decoration EmptyString (getResource message')))).
Proof.
  intros self now message S result.
  split; [intros me chat; now apply handle_silent_tables|].
  split; [now apply handle_stays_silent|].
  intros self1 msgbody Hs Hd Hi Ha Hq Ho.
  assert (Hr : result
               = send_to_chat
                   (with_timeout None
                      (with_silent false
                         (with_curr_message (Some (lower msgbody)) self1)))
                   (String.append "thanks, "
                      (lower (sub decoration EmptyString (getResource message))))).
  { unfold result.
    rewrite (handle_processed _ _ _ _ _ Hs Hd); cbv zeta. rewrite Hi, Ha.
    unfold spoken_to. rewrite me_responder_answer, Hq.
    destruct (search true okay_expression (lower msgbody)); [|now elim Ho].
    reflexivity. }
  rewrite Hr; cbn [send_to_chat fst snd].
  rewrite silent_update_message_state, timeout_update_message_state.
  repeat split.
  intros now' message' msgbody' response Hd' Hi' Ha' Hq' Ho' He' Hf'.
  set (bot := update_message_state _).
  pose proof (past_startup_cleared _ _ _ Hs) as Hc.
  assert (Hb : startup bot = None /\ my_names bot = my_names self
               /\ ignore_from bot = ignore_from self
               /\ me_responds bot = me_responds self /\ silent bot = false).
  { unfold bot, update_message_state.
    destruct (truthy _); frame_startup Hs; repeat split; assumption || reflexivity. }
  destruct Hb as (Bs & Bn & Bi & Bm & Bq).
  apply handle_table_reply with (self1 := bot) (msgbody := msgbody');
    try assumption.
  - unfold past_startup. now rewrite Bs.
  - now rewrite Bi.
  - now rewrite Bn.
  - now rewrite me_responder_answer, Hq', Ho', He'.
  - now rewrite Bm.
Qed.

Lemma silence_gate_witness :
  let bot :=
    with_silent true
      (fresh ["zbot"] [(Lit "hello", [Text "hi "; Field0; Text "!"])] []) in
  let resumed := handle_groupchat_message bot 1 (says "Alice" "okay, zbot") in
  silent (fst (handle_groupchat_message bot 0 (says "Alice" "hello zbot"))) = true
  /\ snd resumed = Some "thanks, alice"
  /\ silent (fst resumed) = false
  /\ snd (handle_groupchat_message (fst resumed) 2 (says "Alice" "hello zbot"))
     = Some "hi Alice!".
Proof.
  cbv zeta.
  split.
  - refine (proj1 (proj2 (silence_gate
             (with_silent true
                (fresh ["zbot"] [(Lit "hello", [Text "hi "; Field0; Text "!"])] []))
             0%Z (says "Alice" "hello zbot") eq_refl)) _).
    intros msgbody [= <-]. reflexivity.
  - destruct (proj2 (proj2 (silence_gate
             (with_silent true
                (fresh ["zbot"] [(Lit "hello", [Text "hi "; Field0; Text "!"])] []))
             1%Z (says "Alice" "okay, zbot") eq_refl))
             (with_silent true
                (fresh ["zbot"] [(Lit "hello", [Text "hi "; Field0; Text "!"])] []))
             "okay, zbot" eq_refl eq_refl eq_refl eq_refl eq_refl
             ltac:(discriminate))
      as (H1 & H2 & _ & H4).
    split; [exact H1|split; [exact H2|]].
    exact (H4 2%Z (says "Alice" "hello zbot") "hello zbot"
              [Text "hi "; Field0; Text "!"]
              eq_refl eq_refl eq_refl eq_refl eq_refl eq_refl eq_refl).
Defined.

(** ** C3: the timeout gate *)

Lemma timeout_gates_pending self now t :
  timeout self = Some t -> (now < t)%Z ->
  timeout (fst (gates self now)) = Some t.
Proof.
  intros Ht Hlt. unfold gates. apply Z.ltb_lt in Hlt.
  destruct (silent self); cbn [fst];
    [|rewrite Ht, Hlt; cbn [fst]];
    now rewrite timeout_update_message_state.
Qed.

Lemma timeout_gates_expired self now t :
  timeout self = Some t -> (t <= now)%Z -> silent self = false ->
  timeout (fst (gates self now)) = None.
Proof.
  intros Ht Hle S. unfold gates. rewrite S, Ht.
  apply Z.ltb_ge in Hle. now rewrite Hle.
Qed.

(** C3, as the code has it.  The timeout gate, for a message past the
    startup delay, with a body that decodes, from a sender not ignored.
    - A message that names the bot and is taken by the take-a-break
      rule (its expression matches, the expressions of the two rules
      registered before it do not) is answered
      [i'm gonna stay quiet for a bit.] and sets [timeout] to the clock
      reading plus ten minutes exactly.
    - While the clock is before the expiry, a message that does not
      name the bot gets no reply and the timeout stays.
    - At or after the expiry, a message that reaches the gate (it does
      not name the bot, or more generally gets no reply, and the bot is
      not silent) clears the timeout.
    - The rules and the table for messages that name the bot run as
      ever while a timeout is set: an answer of a control rule is sent,
      and when no rule answers and the bot is not silent the first
      matching entry of [me_responds] is. *)
Theorem timeout_gate :
  forall self self1 now message msgbody,
    past_startup self now = Some self1 ->
    decode_body message = Some msgbody ->
    contains (lower (getResource message)) (ignore_from self) = false ->
    let msgtext := lower msgbody in
    let nicefrom := sub decoration EmptyString (getResource message) in
    let answer :=
      fst (get_response (me_responder now)
             (with_curr_message (Some msgtext) self1) msgtext nicefrom) in
    let result := handle_groupchat_message self now message in
    (addressed (my_names self) msgtext = true ->
     search true quiet_expression msgtext = None ->
     search true okay_expression msgtext = None ->
     search true enough_expression msgtext <> None ->
     snd result = Some "i'm gonna stay quiet for a bit."
     /\ timeout (fst result) = Some (now + minutes 10)%Z)
    /\ (forall t,
           timeout self = Some t -> (now < t)%Z ->
           addressed (my_names self) msgtext = false ->
           snd result = None /\ timeout (fst result) = Some t)
    /\ (forall t,
           timeout self = Some t -> (t <= now)%Z ->
           silent self = false ->
           addressed (my_names self) msgtext = false \/ snd result = None ->
           timeout (fst result) = None)
    /\ (forall t,
           timeout self = Some t ->
           addressed (my_names self) msgtext = true ->
           (forall out, answer = Some out -> snd result = Some out)
           /\ (forall response,
                  answer = None ->
                  silent self = false ->
                  first_response (me_responds self) msgtext = Some response ->
                  snd result = Some (format response nicefrom))).
Proof.
  intros self self1 now message msgbody Hs Hd Hi msgtext nicefrom answer result.
  set (bot := with_curr_message (Some msgtext) self1).
  assert (Hr : result
               = if addressed (my_names self) msgtext
                 then spoken_to bot now msgtext nicefrom
                 else gates bot now).
  { unfold result. rewrite (handle_processed _ _ _ _ _ Hs Hd); cbv zeta.
    now rewrite Hi. }
  assert (Bt : timeout bot = timeout self) by (frame_startup Hs; reflexivity).
  assert (Bq : silent bot = silent self) by (frame_startup Hs; reflexivity).
  assert (Bm : me_responds bot = me_responds self) by (frame_startup Hs; reflexivity).
  split; [|split; [|split]].
  - intros Ha Hq Ho He. rewrite Hr, Ha. unfold spoken_to.
    rewrite me_responder_answer, Hq, Ho.
    destruct (search true enough_expression msgtext); [|now elim He].
    cbn [set_timeout truthy text_of send_to_chat fst snd].
    now rewrite timeout_update_message_state.
  - intros t Ht Hlt Ha. rewrite Hr, Ha. split; [apply gates_no_reply|].
    apply timeout_gates_pending; [now rewrite Bt|assumption].
  - intros t Ht Hle S Hg. rewrite Hr in *.
    assert (G : timeout (fst (gates bot now)) = None).
    { apply timeout_gates_expired with (t := t);
        [now rewrite Bt|assumption|now rewrite Bq]. }
    destruct (addressed (my_names self) msgtext); [|exact G].
    destruct Hg as [Hg|Hg]; [discriminate|].
    revert Hg. unfold spoken_to. rewrite me_responder_answer.
    destruct (search true quiet_expression msgtext); [discriminate|].
    destruct (search true okay_expression msgtext); [discriminate|].
    destruct (search true enough_expression msgtext); [discriminate|].
    cbn [truthy]. rewrite Bq, S.
    destruct (first_response (me_responds bot) msgtext); [discriminate|].
    intros _; exact G.
  - intros t Ht Ha. rewrite Hr, Ha. unfold spoken_to.
    pose proof (me_responder_truthy now bot msgtext nicefrom) as T.
    pose proof (me_responder_frame now bot msgtext nicefrom) as F.
    destruct (get_response (me_responder now) bot msgtext nicefrom)
      as [o b] eqn:G.
    cbn [fst snd] in T, F. destruct F as (_ & _ & Fm & _).
    assert (Fs : answer = None -> silent b = silent bot).
    { unfold answer. fold bot. rewrite me_responder_answer in G |- *.
      destruct (search true quiet_expression msgtext); [discriminate|].
      destruct (search true okay_expression msgtext); [discriminate|].
      destruct (search true enough_expression msgtext); [discriminate|].
      injection G as _ <-. reflexivity. }
    assert (Eo : answer = o) by (unfold answer; fold bot; now rewrite G).
    rewrite Eo in *. split.
    + intros out ->. destruct T as [T|T]; [discriminate|].
      now rewrite T.
    + intros response -> S Hf. cbn [truthy].
      now rewrite (Fs eq_refl), Bq, S, Fm, Bm, Hf.
Qed.

Lemma timeout_gate_witness :
  let result :=
    handle_groupchat_message (fresh ["zbot"] [] []) 5
                             (says "Alice" "zbot, that's enough") in
  (snd result = Some "i'm gonna stay quiet for a bit."
   /\ timeout (fst result) = Some 600000005%Z)
  /\ (snd (handle_groupchat_message (fst result) 600000004
             (says "Bob" "hello everyone")) = None
      /\ timeout (fst (handle_groupchat_message (fst result) 600000004
                         (says "Bob" "hello everyone")))
         = Some 600000005%Z)
  /\ timeout (fst (handle_groupchat_message (fst result) 600000005
                     (says "Bob" "hello everyone")))
     = None.
Proof.
  cbv zeta.
  split; [|split].
  - refine (proj1 (timeout_gate (fresh ["zbot"] [] []) (fresh ["zbot"] [] [])
                     5%Z (says "Alice" "zbot, that's enough")
                     "zbot, that's enough" eq_refl eq_refl eq_refl)
                  eq_refl eq_refl eq_refl _).
    discriminate.
  - refine (proj1 (proj2
             (timeout_gate
                (fst (handle_groupchat_message (fresh ["zbot"] [] []) 5
                        (says "Alice" "zbot, that's enough")))
                (fst (handle_groupchat_message (fresh ["zbot"] [] []) 5
                        (says "Alice" "zbot, that's enough")))
                600000004%Z (says "Bob" "hello everyone")
                "hello everyone" eq_refl eq_refl eq_refl))
             600000005%Z eq_refl eq_refl eq_refl).
  - refine (proj1 (proj2 (proj2
             (timeout_gate
                (fst (handle_groupchat_message (fresh ["zbot"] [] []) 5
                        (says "Alice" "zbot, that's enough")))
                (fst (handle_groupchat_message (fresh ["zbot"] [] []) 5
                        (says "Alice" "zbot, that's enough")))
                600000005%Z (says "Bob" "hello everyone")
                "hello everyone" eq_refl eq_refl eq_refl)))
             600000005%Z eq_refl _ eq_refl (or_introl eq_refl)).
    discriminate.
Defined.

(** ** The order of the control rules and of the gates at work *)

(** C2, as the claim has it, fails: a text that the resume expression
    matches does not always end the silence.
    - [okay], said in the room without the name of the bot, is not
      taken as spoken to it: the control rules are not asked and the
      bot stays silent.
    - With [re.M] every line of the text can start a command.  The
      second message names the bot and the resume expression matches it
      (on its second line), but the quiet rule, registered first,
      matches too and takes it: the bot stays silent. *)
Lemma resume_text_leaves_bot_silent :
  let bot := with_silent true (fresh ["zbot"] [] []) in
  let unnamed := handle_groupchat_message bot 0 (says "Alice" "okay") in
  let result :=
    handle_groupchat_message bot 0 (says "Alice" quiet_then_okay_lines) in
  (found (search true okay_expression "okay") = true
   /\ addressed ["zbot"] "okay" = false
   /\ snd unnamed = None
   /\ silent (fst unnamed) = true)
  /\ (addressed ["zbot"] quiet_then_okay_lines = true
      /\ found (search true okay_expression quiet_then_okay_lines) = true
      /\ found (search true quiet_expression quiet_then_okay_lines) = true
      /\ snd result = Some "sorry. i'll put a lid on it."
      /\ silent (fst result) = true).
Proof.
  cbv zeta. repeat split; reflexivity.
Qed.

(** C3, as the claim has it, fails, on both of its transitions.
    - [okay zbot, that's enough] names the bot and asks for a break, but
      the line starts with [okay]: the resume rule, registered before
      the take-a-break rule, takes it and no timeout is set.
    - A timeout that expired at 100 is still there after a message
      handled at 200, when that message is answered (here from the
      [me_responds] table), and when the bot is silent: both exits come
      before the timeout gate. *)
Lemma timeout_neither_set_nor_cleared :
  let hello := [(Lit "hello", [Text "hi "; Field0; Text "!"])] in
  let asked :=
    handle_groupchat_message (fresh ["zbot"] [] []) 5
                             (says "Alice" "okay zbot, that's enough") in
  let answered :=
    handle_groupchat_message (with_timeout (Some 100%Z) (fresh ["zbot"] hello []))
                             200 (says "Alice" "hello zbot") in
  let silenced :=
    handle_groupchat_message
      (with_silent true (with_timeout (Some 100%Z) (fresh ["zbot"] [] [])))
      200 (says "Bob" "hello everyone") in
  (addressed ["zbot"] "okay zbot, that's enough" = true
   /\ found (search true enough_expression "okay zbot, that's enough") = true
   /\ snd asked = Some "thanks, alice"
   /\ timeout (fst asked) = None)
  /\ (snd answered = Some "hi Alice!"
      /\ timeout (fst answered) = Some 100%Z)
  /\ (addressed ["zbot"] "hello everyone" = false
      /\ snd silenced = None
      /\ timeout (fst silenced) = Some 100%Z).
Proof.
  cbv zeta. repeat split; reflexivity.
Qed.

(** ** Addressing and the sender's name *)

(** The sender's name loses what follows its first blank. *)
Example nicefrom_strips_decoration :
  sub decoration EmptyString "Alice Smith (work)" = "Alice".
Proof. reflexivity. Qed.

(** [zbot2] does not name [zbot]; [hey zbot can you help] does. *)
Example addressing_is_by_whole_word :
  addressed ["zbot"] "anyone seen zbot2 around" = false
  /\ addressed ["zbot"] "hey zbot can you help" = true.
Proof. split; reflexivity. Qed.

(* ================================================================== *)
(** * Further properties of the resolvers *)

Section MoreResolverFacts.

Variable Bot : Type.
Implicit Types (self pre post : list (Rule Bot)) (bot : Bot).
Implicit Types (text user : string) (target : option string).

Lemma try_expressions_never_empty (func : Handler Bot) es bot text user :
  fst (try_expressions func es bot text user) = None
  \/ truthy (fst (try_expressions func es bot text user)) = true.
Proof.
  revert bot; induction es as [|e es IH]; intros bot; simpl; [now left|].
  destruct (search true e text) as [m|]; [|apply IH].
  destruct (func bot m text user) as [r bot'] eqn:E.
  destruct (truthy r) eqn:T; [now right|apply IH].
Qed.

(** X1.  Neither resolver ever gives back an empty string: the result
    is [None] or true text, whatever the handlers return. *)
Theorem resolve_never_empty :
  forall target self bot text user,
    fst (resolve target self bot text user) = None
    \/ truthy (fst (resolve target self bot text user)) = true.
Proof.
  intros target self; induction self as [|response self IH]; intros bot text user.
  - destruct target; now left.
  - destruct (eligible target response) eqn:E.
    + rewrite resolve_cons by assumption.
      pose proof (try_expressions_never_empty (call response)
                    (expressions response) bot text user) as H.
      destruct (try_expressions _ _ _ _ _) as [r bot']; cbn [fst] in H.
      destruct (truthy r) eqn:T; [now right|apply IH].
    + rewrite resolve_cons_skip by assumption. apply IH.
Qed.

Lemma try_expressions_no_match (func : Handler Bot) es bot text user :
  Forall (fun e => search true e text = None) es ->
  try_expressions func es bot text user = (None, bot).
Proof.
  intros H. rewrite <- (app_nil_r es).
  now rewrite try_expressions_skip.
Qed.

(** X2.  No handler runs without a match: when no expression of any
    rule is found in the text, the resolver gives [None] and the bot is
    as it was. *)
Theorem resolve_no_match :
  forall target self bot text user,
    Forall (fun response =>
              Forall (fun e => search true e text = None)
                     (expressions response)) self ->
    resolve target self bot text user = (None, bot).
Proof.
  intros target self bot text user H; induction H as [|response self Hr _ IH].
  - destruct target; reflexivity.
  - destruct (eligible target response) eqn:E.
    + rewrite resolve_cons by assumption.
      now rewrite try_expressions_no_match.
    + now rewrite resolve_cons_skip.
Qed.

(** X3.  Each resolver sees the registry through its test on rules:
    resolving over the whole list and over the rules that pass the test
    is the same, result and bot. *)
Theorem resolve_filter :
  forall target self bot text user,
    resolve target self bot text user
    = resolve target (filter (eligible target) self) bot text user.
Proof.
  intros target self; induction self as [|response self IH]; intros bot text user.
  - reflexivity.
  - cbn [filter]. destruct (eligible target response) eqn:E.
    + rewrite !resolve_cons by assumption.
      destruct (try_expressions _ _ _ _ _) as [r bot'].
      destruct (truthy r); [reflexivity|apply IH].
    + rewrite resolve_cons_skip by assumption. apply IH.
Qed.

(** X4.  A rule registered with [only_respond_to=''] is never asked:
    [get_response] passes it over because [only_for] is not [None], and
    [get_personal_response] because the empty string is false.  Taking
    it out of the registry changes neither resolver. *)
Theorem empty_addressee_rule_is_dead :
  forall target pre (response : Rule Bot) post bot text user,
    only_for response = Some EmptyString ->
    resolve target (pre ++ response :: post) bot text user
    = resolve target (pre ++ post) bot text user.
Proof.
  intros target pre response post bot text user H.
  assert (E : eligible target response = false).
  { destruct target as [t|]; unfold eligible, is_for; now rewrite H. }
  rewrite !resolve_app.
  destruct (resolve target pre bot text user) as [r b].
  destruct (truthy r); [reflexivity|].
  now rewrite resolve_cons_skip.
Qed.

(** X5.  [get_personal_response] compares the addressee and the target
    in lower case: two targets that differ only in case give the same
    result and the same bot. *)
Theorem personal_target_case_insensitive :
  forall self bot text user t1 t2,
    lower t1 = lower t2 ->
    get_personal_response self bot text user t1
    = get_personal_response self bot text user t2.
Proof.
  intros self bot text user t1 t2 H; revert bot.
  induction self as [|response self IH]; intros bot; [reflexivity|].
  cbn [get_personal_response].
  assert (E : is_for response t1 = is_for response t2)
    by (unfold is_for; now rewrite H).
  rewrite E. destruct (is_for response t2); [|apply IH].
  destruct (try_expressions _ _ _ _ _) as [r bot'].
  destruct (truthy r); [reflexivity|apply IH].
Qed.


End MoreResolverFacts.

Lemma resolve_no_match_witness :
  get_response [answering None "one"; declining None] 7 "good morning" "al"
  = (None, 7).
Proof.
  apply (resolve_no_match nat None
           [answering None "one"; declining None] 7 "good morning" "al").
  repeat constructor.
Defined.

Lemma empty_addressee_rule_is_dead_witness :
  get_personal_response
    [answering (Some EmptyString) "one"; answering (Some "bob") "two"]
    0 "hello" "al" EmptyString
  = get_personal_response [answering (Some "bob") "two"]
                          0 "hello" "al" EmptyString.
Proof.
  exact (empty_addressee_rule_is_dead nat (Some EmptyString) []
           (answering (Some EmptyString) "one") [answering (Some "bob") "two"]
           0 "hello" "al" eq_refl).
Defined.

Lemma personal_target_case_insensitive_witness :
  get_personal_response [answering (Some "Bob") "two"] 0 "hello" "al" "BOB"
  = get_personal_response [answering (Some "Bob") "two"] 0 "hello" "al" "bob".
Proof.
  exact (personal_target_case_insensitive nat
           [answering (Some "Bob") "two"] 0 "hello" "al" "BOB" "bob" eq_refl).
Defined.


(* ================================================================== *)
(** * Further properties of the dispatcher *)

(** When no control rule answers, none has run. *)
Lemma me_responder_declines now self text user self' :
  get_response (me_responder now) self text user = (None, self') ->
  self' = self
  /\ search true quiet_expression text = None
  /\ search true okay_expression text = None
  /\ search true enough_expression text = None.
Proof.
  rewrite me_responder_answer.
  destruct (search true quiet_expression text); [discriminate|].
  destruct (search true okay_expression text); [discriminate|].
  destruct (search true enough_expression text); [discriminate|].
  now intros [= <-].
Qed.

(** The answer of the control rules is one of three, with the change
    that goes with it. *)
Lemma me_responder_answers now self text user out self' :
  get_response (me_responder now) self text user = (out, self') ->
  truthy out = true ->
  (out = Some "sorry. i'll put a lid on it."
   /\ self' = with_silent true self)
  \/ (out = Some (String.append "thanks, " (lower user))
      /\ self' = with_timeout None (with_silent false self))
  \/ (out = Some "i'm gonna stay quiet for a bit."
      /\ self' = with_timeout (Some (now + minutes 10)%Z) self).
Proof.
  rewrite me_responder_answer.
  destruct (search true quiet_expression text);
    [intros [= <- <-] _; now left|].
  destruct (search true okay_expression text);
    [intros [= <- <-] _; right; now left|].
  destruct (search true enough_expression text);
    [intros [= <- <-] _; right; now right|].
  intros [= <- <-]; discriminate.
Qed.

(** Every dispatch ends in one of the six ways. *)
Lemma handle_dispatched self now message :
  dispatched self now message (handle_groupchat_message self now message).
Proof.
  destruct (past_startup self now) as [self1|] eqn:Hs.
  - destruct (decode_body message) as [msgbody|] eqn:Hd.
    + rewrite (handle_processed _ _ _ _ _ Hs Hd); cbv zeta.
      destruct (contains _ _) eqn:Hi; [now apply ignored|].
      destruct (addressed _ _) eqn:Ha; [|now apply at_gates].
      unfold spoken_to.
      destruct (get_response _ _ _ _) as [out self2] eqn:G.
      destruct (truthy out) eqn:T; [eapply by_rule; eassumption|].
      assert (out = None) as ->.
      { pose proof (me_responder_truthy now
                      (with_curr_message (Some (lower msgbody)) self1)
                      (lower msgbody)
                      (sub decoration EmptyString (getResource message))) as H.
        rewrite G in H; cbn [fst] in H. destruct H; congruence. }
      destruct (me_responder_declines _ _ _ _ _ G) as (-> & Hq & Ho & He).
      assert (S : silent (with_curr_message (Some (lower msgbody)) self1)
                  = silent self) by (frame_startup Hs; reflexivity).
      assert (M : me_responds (with_curr_message (Some (lower msgbody)) self1)
                  = me_responds self) by (frame_startup Hs; reflexivity).
      destruct (silent (with_curr_message _ _)) eqn:Q.
      * replace (update_message_state _, @None string)
          with (gates (with_curr_message (Some (lower msgbody)) self1) now)
          by (unfold gates; now rewrite Q).
        now apply at_gates.
      * rewrite M.
        destruct (first_response (me_responds self) (lower msgbody)) eqn:F;
          [now apply by_table|now apply at_gates].
    + unfold handle_groupchat_message. rewrite Hs, Hd. now apply undecoded.
  - unfold handle_groupchat_message. rewrite Hs. now apply in_startup.
Qed.

(** What the bookkeeping and the gates leave alone. *)
Lemma update_message_state_keeps self :
  let self' := update_message_state self in
  my_names self' = my_names self /\ ignore_from self' = ignore_from self
  /\ me_responds self' = me_responds self
  /\ chat_responds self' = chat_responds self
  /\ startup self' = startup self.
Proof.
  unfold update_message_state.
  now destruct (truthy (curr_message self)).
Qed.

Lemma gates_keeps self now :
  let self' := fst (gates self now) in
  my_names self' = my_names self /\ ignore_from self' = ignore_from self
  /\ me_responds self' = me_responds self
  /\ chat_responds self' = chat_responds self
  /\ startup self' = startup self.
Proof.
  unfold gates.
  destruct (silent self); cbn [fst]; [apply update_message_state_keeps|].
  destruct (timeout self) as [t|]; cbn [fst]; [|now repeat split].
  destruct (now <? t)%Z; cbn [fst];
    [apply update_message_state_keeps|now repeat split].
Qed.

(** X7.  A dispatch never touches the configuration: the names, the
    ignore list and both response tables are after it what they were
    before, whatever the message; the startup mark is left alone or
    cleared, never set. *)
Theorem handle_keeps_configuration :
  forall self now message,
    let self' := fst (handle_groupchat_message self now message) in
    my_names self' = my_names self
    /\ ignore_from self' = ignore_from self
    /\ me_responds self' = me_responds self
    /\ chat_responds self' = chat_responds self
    /\ (startup self' = startup self \/ startup self' = None).
Proof.
  intros self now message self'. unfold self'.
  destruct (handle_dispatched self now message)
    as [Hs|self1 Hs Hd|self1 msgbody Hs Hd Hi
        |self1 msgbody out self2 Hs Hd Hi Ha G T
        |self1 msgbody response Hs Hd Hi Ha Hq Ho He S F
        |self1 msgbody Hs Hd Hi]; cbn [fst send_to_chat].
  - repeat split; now left.
  - frame_startup Hs; repeat split; (now left) || (now right).
  - frame_startup Hs; repeat split; (now left) || (now right).
  - destruct (update_message_state_keeps self2) as (-> & -> & -> & -> & ->).
    destruct (me_responder_answers _ _ _ _ _ _ G T)
      as [[_ ->]|[[_ ->]|[_ ->]]];
      frame_startup Hs; repeat split; (now left) || (now right).
  - destruct (update_message_state_keeps
                (with_curr_message (Some (lower msgbody)) self1))
      as (-> & -> & -> & -> & ->).
    frame_startup Hs; repeat split; (now left) || (now right).
  - destruct (gates_keeps (with_curr_message (Some (lower msgbody)) self1) now)
      as (-> & -> & -> & -> & ->).
    frame_startup Hs; repeat split; (now left) || (now right).
Qed.

Lemma first_response_In responds msgtext response :
  first_response responds msgtext = Some response ->
  exists expression,
    In (expression, response) responds
    /\ found (search false expression msgtext) = true.
Proof.
  induction responds as [|[e t] responds IH]; cbn [first_response];
    [discriminate|].
  destruct (found (search false e msgtext)) eqn:F.
  - intros [= <-]. exists e. split; [now left|exact F].
  - intros H. destruct (IH H) as (e' & Hin & Hf).
    exists e'. split; [now right|exact Hf].
Qed.

(** X8.  The bot has four things to say and no other: the answers of
    its three control rules, and the reply template of an entry of
    [me_responds] whose expression is found in the lowercased body,
    filled in with the sender's name. *)
Theorem reply_vocabulary :
  forall self now message reply,
    snd (handle_groupchat_message self now message) = Some reply ->
    exists msgbody,
      decode_body message = Some msgbody
      /\ let nicefrom := sub decoration EmptyString (getResource message) in
         (reply = "sorry. i'll put a lid on it."
          \/ reply = String.append "thanks, " (lower nicefrom)
          \/ reply = "i'm gonna stay quiet for a bit."
          \/ exists expression response,
              In (expression, response) (me_responds self)
              /\ found (search false expression (lower msgbody)) = true
              /\ reply = format response nicefrom).
Proof.
  intros self now message reply.
  destruct (handle_dispatched self now message)
    as [Hs|self1 Hs Hd|self1 msgbody Hs Hd Hi
        |self1 msgbody out self2 Hs Hd Hi Ha G T
        |self1 msgbody response Hs Hd Hi Ha Hq Ho He S F
        |self1 msgbody Hs Hd Hi]; cbn [snd send_to_chat]; try discriminate.
  - intros [= <-]. exists msgbody. split; [exact Hd|]. cbv zeta.
    destruct (me_responder_answers _ _ _ _ _ _ G T)
      as [[-> _]|[[-> _]|[-> _]]]; cbn [text_of]; tauto.
  - intros [= <-]. exists msgbody. split; [exact Hd|]. cbv zeta.
    destruct (first_response_In _ _ _ F) as (e & Hin & Hf).
    right; right; right. now exists e, response.
  - now rewrite gates_no_reply.
Qed.

Lemma reply_vocabulary_witness :
  exists msgbody,
    decode_body (says "Bob Smith" "Hello zbot") = Some msgbody
    /\ let nicefrom := sub decoration EmptyString "Bob Smith" in
       ("hi Bob!" = "sorry. i'll put a lid on it."
        \/ "hi Bob!" = String.append "thanks, " (lower nicefrom)
        \/ "hi Bob!" = "i'm gonna stay quiet for a bit."
        \/ exists expression response,
            In (expression, response)
               [(Lit "hello", [Text "hi "; Field0; Text "!"])]
            /\ found (search false expression (lower msgbody)) = true
            /\ "hi Bob!" = format response nicefrom).
Proof.
  exact (reply_vocabulary
           (fresh ["zbot"] [(Lit "hello", [Text "hi "; Field0; Text "!"])] [])
           0%Z (says "Bob Smith" "Hello zbot") "hi Bob!" eq_refl).
Defined.

Lemma shift_or_keep self text :
  curr_message self = Some text ->
  (curr_message (update_message_state self) = Some text
   /\ prev_message (update_message_state self) = prev_message self)
  \/ (curr_message (update_message_state self) = None
      /\ prev_message (update_message_state self) = Some text
      /\ truthy (Some text) = true).
Proof.
  intros H. unfold update_message_state. rewrite H.
  destruct (truthy (Some text)); [right|left]; now repeat split.
Qed.

(** X9.  What a dispatch does to the message bookkeeping, for every
    message past the startup delay whose body decodes: either the
    lowercased text stays in [curr_message] and [prev_message] is as
    before, or the text, not empty, has moved into [prev_message] and
    [curr_message] is [None].  [prev_message] never holds anything but
    what it held or the text just handled. *)
Theorem bookkeeping_dichotomy :
  forall self self1 now message msgbody,
    past_startup self now = Some self1 ->
    decode_body message = Some msgbody ->
    let self' := fst (handle_groupchat_message self now message) in
    (curr_message self' = Some (lower msgbody)
     /\ prev_message self' = prev_message self)
    \/ (curr_message self' = None
        /\ prev_message self' = Some (lower msgbody)
        /\ truthy (Some (lower msgbody)) = true).
Proof.
  intros self self1 now message msgbody Hs Hd self'. unfold self'.
  assert (P : prev_message self1 = prev_message self)
    by (frame_startup Hs; reflexivity).
  assert (K : forall bot,
             curr_message bot = Some (lower msgbody) ->
             prev_message bot = prev_message self ->
             (curr_message (update_message_state bot) = Some (lower msgbody)
              /\ prev_message (update_message_state bot) = prev_message self)
             \/ (curr_message (update_message_state bot) = None
                 /\ prev_message (update_message_state bot) = Some (lower msgbody)
                 /\ truthy (Some (lower msgbody)) = true)).
  { intros bot Hc Hp. rewrite <- Hp. now apply shift_or_keep. }
  destruct (handle_dispatched self now message)
    as [Hs'|self1' Hs' Hd'|self1' msgbody' Hs' Hd' Hi
        |self1' msgbody' out self2 Hs' Hd' Hi Ha G T
        |self1' msgbody' response Hs' Hd' Hi Ha Hq Ho He S F
        |self1' msgbody' Hs' Hd' Hi];
    try congruence;
    assert (self1' = self1) as -> by congruence;
    assert (msgbody' = msgbody) as -> by congruence;
    cbn [fst send_to_chat].
  - left. now split.
  - apply K;
      destruct (me_responder_answers _ _ _ _ _ _ G T)
        as [[_ ->]|[[_ ->]|[_ ->]]]; assumption || reflexivity.
  - now apply K.
  - unfold gates.
    destruct (silent _); cbn [fst]; [now apply K|].
    destruct (timeout _) as [t|]; cbn [fst]; [|left; now split].
    destruct (now <? t)%Z; cbn [fst]; [now apply K|left; now split].
Qed.

Lemma bookkeeping_dichotomy_witness :
  let self' :=
    fst (handle_groupchat_message (fresh ["zbot"] [] []) 0
                                  (says "Bob" "Hello everyone")) in
  (curr_message self' = Some (lower "Hello everyone")
   /\ prev_message self' = Some EmptyString)
  \/ (curr_message self' = None
      /\ prev_message self' = Some (lower "Hello everyone")
      /\ truthy (Some (lower "Hello everyone")) = true).
Proof.
  exact (bookkeeping_dichotomy (fresh ["zbot"] [] []) (fresh ["zbot"] [] [])
           0%Z (says "Bob" "Hello everyone") "Hello everyone"
           eq_refl eq_refl).
Defined.

Lemma gates_timeout self now :
  timeout (fst (gates self now)) = timeout self
  \/ (timeout (fst (gates self now)) = None
      /\ silent self = false
      /\ exists t, timeout self = Some t /\ (t <= now)%Z).
Proof.
  unfold gates.
  destruct (silent self) eqn:S; cbn [fst];
    [left; apply timeout_update_message_state|].
  destruct (timeout self) as [t|] eqn:E; cbn [fst]; [|now left].
  destruct (now <? t)%Z eqn:L; cbn [fst].
  - left. now rewrite timeout_update_message_state.
  - right. repeat split. exists t. split; [reflexivity|].
    now apply Z.ltb_ge.
Qed.

(** X10.  The bot never changes its silence without saying so: after a
    dispatch [silent] is what it was, or it is [True] and the reply is
    the answer of the quiet rule, or it is [False] and the reply is the
    thanks of the resume rule. *)
Theorem silent_changes_are_announced :
  forall self now message,
    let result := handle_groupchat_message self now message in
    silent (fst result) = silent self
    \/ (silent (fst result) = true
        /\ snd result = Some "sorry. i'll put a lid on it.")
    \/ (silent (fst result) = false
        /\ snd result
           = Some (String.append "thanks, "
                     (lower (sub decoration EmptyString
                                 (getResource message))))).
Proof.
  intros self now message result. unfold result.
  destruct (handle_dispatched self now message)
    as [Hs|self1 Hs Hd|self1 msgbody Hs Hd Hi
        |self1 msgbody out self2 Hs Hd Hi Ha G T
        |self1 msgbody response Hs Hd Hi Ha Hq Ho He S F
        |self1 msgbody Hs Hd Hi]; cbn [fst snd send_to_chat];
    try rewrite silent_update_message_state;
    try rewrite silent_gates.
  - now left.
  - left. frame_startup Hs; reflexivity.
  - left. frame_startup Hs; reflexivity.
  - destruct (me_responder_answers _ _ _ _ _ _ G T)
      as [[-> ->]|[[-> ->]|[-> ->]]]; cbn [text_of].
    + right; left. now split.
    + right; right. now split.
    + left. frame_startup Hs; reflexivity.
  - left. frame_startup Hs; reflexivity.
  - left. frame_startup Hs; reflexivity.
Qed.

(** X11.  The timeout after a dispatch is the one before it, or the
    clock reading plus ten minutes, announced by the answer of the
    take-a-break rule, or [None]: cleared by the resume rule, with its
    thanks, or at the timeout gate, without a reply, and then the bot
    is not silent and the timeout had expired.  A timeout is never
    moved to any other time and never cleared before it expires unless
    the sender says okay. *)
Theorem timeout_after_dispatch :
  forall self now message,
    let result := handle_groupchat_message self now message in
    timeout (fst result) = timeout self
    \/ (timeout (fst result) = Some (now + minutes 10)%Z
        /\ snd result = Some "i'm gonna stay quiet for a bit.")
    \/ (timeout (fst result) = None
        /\ snd result
           = Some (String.append "thanks, "
                     (lower (sub decoration EmptyString
                                 (getResource message)))))
    \/ (timeout (fst result) = None
        /\ snd result = None
        /\ silent self = false
        /\ exists t, timeout self = Some t /\ (t <= now)%Z).
Proof.
  intros self now message result. unfold result.
  destruct (handle_dispatched self now message)
    as [Hs|self1 Hs Hd|self1 msgbody Hs Hd Hi
        |self1 msgbody out self2 Hs Hd Hi Ha G T
        |self1 msgbody response Hs Hd Hi Ha Hq Ho He S F
        |self1 msgbody Hs Hd Hi]; cbn [fst snd send_to_chat];
    try rewrite timeout_update_message_state.
  - now left.
  - left. frame_startup Hs; reflexivity.
  - left. frame_startup Hs; reflexivity.
  - destruct (me_responder_answers _ _ _ _ _ _ G T)
      as [[-> ->]|[[-> ->]|[-> ->]]]; cbn [text_of].
    + left. frame_startup Hs; reflexivity.
    + right; right; left. now split.
    + right; left. now split.
  - left. frame_startup Hs; reflexivity.
  - rewrite gates_no_reply.
    destruct (gates_timeout (with_curr_message (Some (lower msgbody)) self1) now)
      as [E|(E & Q & t & Ht & Hle)]; rewrite E.
    + left. frame_startup Hs; reflexivity.
    + right; right; right. repeat split.
      * frame_startup Hs; exact Q.
      * exists t. split; [|exact Hle]. frame_startup Hs; exact Ht.
Qed.

(** ** Addressing *)

Lemma ends_seq multiline r1 r2 k :
  ends multiline (Seq r1 r2) k
  = flat_map (ends multiline r2) (ends multiline r1 k).
Proof. reflexivity. Qed.





(** ** Letter case *)

Lemma lower_char_idempotent c : lower_char (lower_char c) = lower_char c.
Proof.
  destruct c as [[] [] [] [] [] [] [] []]; reflexivity.
Qed.

Lemma is_ascii_lower_char c : is_ascii (lower_char c) = is_ascii c.
Proof.
  destruct c as [[] [] [] [] [] [] [] []]; reflexivity.
Qed.

Lemma lower_idempotent s : lower (lower s) = lower s.
Proof.
  induction s as [|c s IH]; [reflexivity|].
  cbn [lower]. now rewrite lower_char_idempotent, IH.
Qed.

Lemma decode_utf8_str_lower raw :
  decode_utf8_str (lower raw) = option_map lower (decode_utf8_str raw).
Proof.
  unfold decode_utf8_str.
  assert (E : forallb is_ascii (list_ascii_of_string (lower raw))
              = forallb is_ascii (list_ascii_of_string raw)).
  { induction raw as [|c raw IH]; [reflexivity|].
    cbn [lower list_ascii_of_string forallb].
    now rewrite is_ascii_lower_char, IH. }
  rewrite E.
  destruct (forallb is_ascii (list_ascii_of_string raw)); reflexivity.
Qed.

(** X13.  The dispatcher reads the body in lower case only: a message
    and the same message with its body lowercased are handled alike,
    reply and bot.  [QUIET ZBOT] is [quiet zbot]. *)
Theorem handle_body_case_insensitive :
  forall self now message,
    handle_groupchat_message self now message
    = handle_groupchat_message self now
        {| getBody := option_map lower (getBody message);
           getResource := getResource message |}.
Proof.
  intros self now message. unfold handle_groupchat_message.
  destruct (past_startup self now) as [self1|]; [|reflexivity].
  unfold decode_body; cbn [getBody getResource].
  destruct (getBody message) as [raw|]; cbn [option_map]; [|reflexivity].
  rewrite decode_utf8_str_lower.
  destruct (decode_utf8_str raw) as [msgbody|]; cbn [option_map];
    [|reflexivity].
  now rewrite lower_idempotent.
Qed.

(** ** The ignore list *)

Lemma contains_app x l1 l2 :
  contains x (l1 ++ l2) = contains x l1 || contains x l2.
Proof. unfold contains. apply existsb_app. Qed.

(** A lowercased name is never equal to an entry that is not in lower
    case. *)
Lemma contains_lower_skip x l1 e l2 :
  lower e <> e ->
  contains (lower x) (l1 ++ e :: l2) = contains (lower x) (l1 ++ l2).
Proof.
  intros He. rewrite !contains_app. f_equal.
  unfold contains; cbn [existsb].
  destruct (String.eqb (lower x) e) eqn:E; [|reflexivity].
  apply String.eqb_eq in E. subst e.
  now rewrite lower_idempotent in He.
Qed.

Lemma past_startup_ignore_from l self now :
  past_startup (with_ignore_from l self) now
  = option_map (with_ignore_from l) (past_startup self now).
Proof.
  unfold past_startup; cbn [with_ignore_from startup].
  destruct (startup self) as [s|]; [|reflexivity].
  now destruct (now <? s)%Z.
Qed.

Lemma gates_ignore_from l self now :
  gates (with_ignore_from l self) now
  = (with_ignore_from l (fst (gates self now)), snd (gates self now)).
Proof.
  unfold gates, update_message_state;
    cbn [with_ignore_from silent timeout curr_message].
  destruct (silent self);
    [now destruct (truthy (curr_message self))|].
  destruct (timeout self) as [t|]; [|reflexivity].
  destruct (now <? t)%Z; [|reflexivity].
  now destruct (truthy (curr_message self)).
Qed.

Lemma spoken_to_ignore_from l self now msgtext nicefrom :
  spoken_to (with_ignore_from l self) now msgtext nicefrom
  = (with_ignore_from l (fst (spoken_to self now msgtext nicefrom)),
     snd (spoken_to self now msgtext nicefrom)).
Proof.
  unfold spoken_to. rewrite !me_responder_answer.
  destruct (search true quiet_expression msgtext);
    [|destruct (search true okay_expression msgtext);
      [|destruct (search true enough_expression msgtext)]];
    cbn [start_silence end_silence set_timeout truthy text_of];
    unfold send_to_chat, update_message_state;
    cbn [with_ignore_from with_silent with_timeout curr_message silent
         me_responds fst snd];
    try (now destruct (truthy (curr_message self))).
  destruct (silent self) eqn:S;
    [now destruct (truthy (curr_message self))|].
  destruct (first_response (me_responds self) msgtext);
    [now destruct (truthy (curr_message self))|].
  apply gates_ignore_from.
Qed.

(** The dispatcher uses the ignore list only to look the lowercased
    sender up in it. *)
Lemma handle_ignore_from l1 l2 self now message :
  contains (lower (getResource message)) l1
  = contains (lower (getResource message)) l2 ->
  handle_groupchat_message (with_ignore_from l1 self) now message
  = (with_ignore_from l1
       (fst (handle_groupchat_message (with_ignore_from l2 self) now message)),
     snd (handle_groupchat_message (with_ignore_from l2 self) now message)).
Proof.
  intros Hc.
  pose proof (past_startup_ignore_from l1 self now) as H1.
  pose proof (past_startup_ignore_from l2 self now) as H2.
  destruct (past_startup self now) as [self1|] eqn:Hs;
    cbn [option_map] in H1, H2.
  - destruct (decode_body message) as [msgbody|] eqn:Hd.
    + rewrite (handle_processed _ _ _ _ _ H1 Hd),
              (handle_processed _ _ _ _ _ H2 Hd).
      cbv zeta; cbn [ignore_from my_names with_ignore_from]. rewrite Hc.
      destruct (contains _ l2); [reflexivity|].
      destruct (addressed _ _).
      * rewrite (spoken_to_ignore_from l1
                   (with_curr_message (Some (lower msgbody)) self1)).
        rewrite (spoken_to_ignore_from l2
                   (with_curr_message (Some (lower msgbody)) self1)).
        reflexivity.
      * rewrite (gates_ignore_from l1
                   (with_curr_message (Some (lower msgbody)) self1)).
        rewrite (gates_ignore_from l2
                   (with_curr_message (Some (lower msgbody)) self1)).
        reflexivity.
    + unfold handle_groupchat_message. now rewrite H1, H2, Hd.
  - unfold handle_groupchat_message. now rewrite H1, H2.
Qed.

(** X14.  The sender is looked up in the ignore list in lower case
    (line 196), so an entry of [ignore_from] that is not all lower case
    ignores nobody: with or without it every message is handled alike,
    reply and bot. *)
Theorem mixed_case_ignore_entry_is_dead :
  forall self l1 e l2 now message,
    lower e <> e ->
    let without :=
      handle_groupchat_message (with_ignore_from (l1 ++ l2) self)
                               now message in
    handle_groupchat_message (with_ignore_from (l1 ++ e :: l2) self)
                             now message
    = (with_ignore_from (l1 ++ e :: l2) (fst without), snd without).
Proof.
  intros self l1 e l2 now message He without.
  apply handle_ignore_from. now apply contains_lower_skip.
Qed.

Lemma mixed_case_ignore_entry_is_dead_witness :
  handle_groupchat_message
    (with_ignore_from ["Alice"] (fresh ["zbot"] [] []))
    0 (says "Alice" "quiet zbot")
  = (with_ignore_from ["Alice"]
       (fst (handle_groupchat_message
               (with_ignore_from [] (fresh ["zbot"] [] []))
               0 (says "Alice" "quiet zbot"))),
     snd (handle_groupchat_message
            (with_ignore_from [] (fresh ["zbot"] [] []))
            0 (says "Alice" "quiet zbot"))).
Proof.
  refine (mixed_case_ignore_entry_is_dead (fresh ["zbot"] [] [])
            [] "Alice" [] 0%Z (says "Alice" "quiet zbot") _).
  discriminate.
Defined.

(** ** The table for messages that name the bot *)

Lemma first_response_app pre post msgtext :
  Forall (fun entry => found (search false (fst entry) msgtext) = false) pre ->
  first_response (pre ++ post) msgtext = first_response post msgtext.
Proof.
  induction 1 as [|[e t] pre He _ IH]; [reflexivity|].
  cbn [app first_response]. cbn [fst] in He. now rewrite He.
Qed.

(** X15.  The [me_responds] table is read in order and its first
    matching entry answers.  For a message past the startup delay, from
    a sender not ignored, that names the bot and matches no control
    rule, with the bot not silent: the reply is the template of the
    first entry whose expression is found in the lowercased body,
    filled in with the sender's name, whatever entries follow it. *)
Theorem table_precedence :
  forall self self1 now message msgbody pre expression response post,
    past_startup self now = Some self1 ->
    decode_body message = Some msgbody ->
    contains (lower (getResource message)) (ignore_from self) = false ->
    addressed (my_names self) (lower msgbody) = true ->
    search true quiet_expression (lower msgbody) = None ->
    search true okay_expression (lower msgbody) = None ->
    search true enough_expression (lower msgbody) = None ->
    silent self = false ->
    me_responds self = pre ++ (expression, response) :: post ->
    Forall (fun entry =>
              found (search false (fst entry) (lower msgbody)) = false) pre ->
    found (search false expression (lower msgbody)) = true ->
    snd (handle_groupchat_message self now message)
    = Some (format response
              (sub decoration EmptyString (getResource message))).
Proof.
  intros self self1 now message msgbody pre expression response post
         Hs Hd Hi Ha Hq Ho He S Hm Hpre Hf.
  apply handle_table_reply with (self1 := self1) (msgbody := msgbody);
    try assumption.
  - now rewrite me_responder_answer, Hq, Ho, He.
  - rewrite Hm, first_response_app by assumption.
    cbn [first_response]. now rewrite Hf.
Qed.

Lemma table_precedence_witness :
  snd (handle_groupchat_message
         (fresh ["zbot"]
                [(Lit "bye", [Text "see you"]);
                 (Lit "hello", [Text "hi "; Field0; Text "!"]);
                 (Lit "hell", [Text "language!"])] [])
         0 (says "Bob Smith" "Hello zbot"))
  = Some "hi Bob!".
Proof.
  refine (table_precedence
            (fresh ["zbot"]
                   [(Lit "bye", [Text "see you"]);
                    (Lit "hello", [Text "hi "; Field0; Text "!"]);
                    (Lit "hell", [Text "language!"])] [])
            (fresh ["zbot"]
                   [(Lit "bye", [Text "see you"]);
                    (Lit "hello", [Text "hi "; Field0; Text "!"]);
                    (Lit "hell", [Text "language!"])] [])
            0%Z (says "Bob Smith" "Hello zbot") "Hello zbot"
            [(Lit "bye", [Text "see you"])]
            (Lit "hello") [Text "hi "; Field0; Text "!"]
            [(Lit "hell", [Text "language!"])]
            eq_refl eq_refl eq_refl eq_refl eq_refl eq_refl eq_refl eq_refl
            eq_refl _ eq_refl).
  repeat constructor.
Defined.

(** ** The sender's name *)

(** [.*] at a character that is not a newline: try after it first. *)
Lemma ends_star_dot_cons multiline p x tl :
  is_linebreak x = false ->
  ends multiline (Star Dot) (p, x :: tl)
  = ends multiline (Star Dot) (Some x, tl) ++ [(p, x :: tl)].
Proof.
  intros Hx. cbn [ends snd List.length]. unfold eat; cbn [snd].
  rewrite Hx; cbn [negb flat_map snd].
  replace (List.length tl <? S (List.length tl)) with true
    by (symmetry; apply Nat.ltb_lt; lia).
  now rewrite app_nil_r.
Qed.

(** On a line, [.*] reaches the end of the subject first. *)
Lemma ends_star_dot_line multiline p tl :
  existsb is_linebreak tl = false ->
  exists q more, ends multiline (Star Dot) (p, tl) = (q, []) :: more.
Proof.
  revert p; induction tl as [|x tl IH]; intros p H.
  - exists p, []. reflexivity.
  - cbn [existsb] in H. apply orb_false_iff in H as [Hx H].
    rewrite ends_star_dot_cons by assumption.
    destruct (IH (Some x) H) as (q & more & ->).
    exists q, (more ++ [(p, x :: tl)]). reflexivity.
Qed.

(** [\s.*$] on a line: no match at a character that is not whitespace,
    and from a whitespace a match that runs to the end. *)
Lemma ends_decoration_line p c tl :
  existsb is_linebreak tl = false ->
  if is_space c
  then exists q more, ends false decoration (p, c :: tl) = (q, []) :: more
  else ends false decoration (p, c :: tl) = [].
Proof.
  intros H. unfold decoration. rewrite ends_seq.
  change (ends false Space (p, c :: tl)) with (eat is_space (p, c :: tl)).
  unfold eat; cbn [snd].
  destruct (is_space c); [|reflexivity].
  cbn [flat_map]. rewrite app_nil_r, ends_seq.
  destruct (ends_star_dot_line false (Some c) tl H) as (q & more & ->).
  exists q, (flat_map (ends false Eol) more). reflexivity.
Qed.

Lemma subst_decoration_line fuel prev rest :
  List.length rest < fuel ->
  existsb is_linebreak rest = false ->
  string_of_list_ascii (subst false fuel decoration [] prev rest)
  = before_space (string_of_list_ascii rest).
Proof.
  revert fuel prev; induction rest as [|c rest IH]; intros fuel prev Hf Hl;
    (destruct fuel as [|fuel]; [cbn [List.length] in Hf; lia|]).
  - reflexivity.
  - cbn [existsb] in Hl. apply orb_false_iff in Hl as [Hc Hl].
    cbn [subst string_of_list_ascii before_space].
    pose proof (ends_decoration_line prev c rest Hl) as E.
    destruct (is_space c).
    + destruct E as (q & more & ->). cbn [snd fst List.length app].
      destruct fuel as [|fuel]; reflexivity.
    + rewrite E. cbn [string_of_list_ascii]. f_equal.
      apply IH; [cbn [List.length] in Hf; lia|exact Hl].
Qed.

(** X16.  The name handed to the rules and the templates, for a sender
    identifier without a newline, is the identifier up to its first
    whitespace: unchanged when it has none, empty when it starts with
    one. *)
Theorem nicefrom_is_first_word :
  forall msgfrom,
    existsb is_linebreak (list_ascii_of_string msgfrom) = false ->
    sub decoration EmptyString msgfrom = before_space msgfrom.
Proof.
  intros msgfrom H. unfold sub.
  rewrite subst_decoration_line by (assumption || lia).
  now rewrite string_of_list_ascii_of_string.
Qed.

Lemma nicefrom_is_first_word_witness :
  sub decoration EmptyString "Alice Smith (work)"
  = before_space "Alice Smith (work)".
Proof.
  exact (nicefrom_is_first_word "Alice Smith (work)" eq_refl).
Defined.

(** ** More names *)







(** ** Sequences of messages *)

(** X18.  Startup grace over a whole backlog: when every message of a
    sequence is handled before the startup mark, the bot is after the
    sequence exactly as it was before, and nothing has been sent. *)
Theorem handle_all_in_startup :
  forall events self s,
    startup self = Some s ->
    Forall (fun event => (fst event < s)%Z) events ->
    handle_all self events = (self, []).
Proof.
  induction events as [|[now message] events IH]; intros self s Hs H;
    [reflexivity|].
  inversion H as [|? ? Hnow Hrest]; subst. cbn [fst] in Hnow.
  cbn [handle_all].
  assert (E : handle_groupchat_message self now message = (self, None)).
  { unfold handle_groupchat_message, past_startup. rewrite Hs.
    apply Z.ltb_lt in Hnow. now rewrite Hnow. }
  rewrite E, (IH self s Hs Hrest). reflexivity.
Qed.

Lemma handle_all_in_startup_witness :
  handle_all (reload 0 [] [] (fresh ["zbot"] [] []))
             [(10%Z, says "Alice" "quiet zbot");
              (59999999%Z, says "Bob" "okay zbot")]
  = (reload 0 [] [] (fresh ["zbot"] [] []), []).
Proof.
  apply (handle_all_in_startup
           [(10%Z, says "Alice" "quiet zbot");
            (59999999%Z, says "Bob" "okay zbot")]
           (reload 0 [] [] (fresh ["zbot"] [] [])) 60000000%Z eq_refl).
  repeat constructor.
Defined.

(** What a silent bot can say to a message the resume rule does not
    take. *)
Lemma silent_step self now message :
  silent self = true ->
  (forall msgbody,
      decode_body message = Some msgbody ->
      search true okay_expression (lower msgbody) = None) ->
  snd (handle_groupchat_message self now message) = None
  \/ snd (handle_groupchat_message self now message)
     = Some "sorry. i'll put a lid on it."
  \/ snd (handle_groupchat_message self now message)
     = Some "i'm gonna stay quiet for a bit.".
Proof.
  intros S Hno.
  destruct (handle_dispatched self now message)
    as [Hs|self1 Hs Hd|self1 msgbody Hs Hd Hi
        |self1 msgbody out self2 Hs Hd Hi Ha G T
        |self1 msgbody response Hs Hd Hi Ha Hq Ho He S' F
        |self1 msgbody Hs Hd Hi]; cbn [snd send_to_chat];
    try (now left).
  - rewrite me_responder_answer, (Hno _ Hd) in G.
    destruct (search true quiet_expression (lower msgbody));
      [injection G as <- _; right; now left|].
    destruct (search true enough_expression (lower msgbody));
      [injection G as <- _; right; now right|].
    injection G as <- _. discriminate.
  - congruence.
  - left. apply gates_no_reply.
Qed.

(** X19.  Silence lasts: over any sequence of messages none of which
    has a text the resume expression matches, a silent bot stays
    silent, and all it sends are the acknowledgements of the quiet and
    take-a-break rules; nothing comes from a table. *)
Theorem handle_all_stays_silent :
  forall events self,
    silent self = true ->
    Forall (fun event =>
              forall msgbody,
                decode_body (snd event) = Some msgbody ->
                search true okay_expression (lower msgbody) = None)
           events ->
    silent (fst (handle_all self events)) = true
    /\ Forall (fun reply =>
                 reply = "sorry. i'll put a lid on it."
                 \/ reply = "i'm gonna stay quiet for a bit.")
              (snd (handle_all self events)).
Proof.
  induction events as [|[now message] events IH]; intros self S H.
  - split; [exact S|constructor].
  - inversion H as [|? ? Hno Hrest]; subst. cbn [snd] in Hno.
    cbn [handle_all].
    pose proof (handle_stays_silent self now message S Hno) as S'.
    pose proof (silent_step self now message S Hno) as R.
    destruct (handle_groupchat_message self now message) as [self' reply].
    cbn [fst snd] in S', R.
    destruct (IH self' S' Hrest) as [Sf Rf].
    destruct (handle_all self' events) as [self'' replies].
    cbn [fst snd] in *. split; [exact Sf|].
    destruct R as [->|[->| ->]]; [exact Rf|constructor..]; auto.
Qed.

Lemma handle_all_stays_silent_witness :
  let run :=
    handle_all (with_silent true
                  (fresh ["zbot"] [(Lit "hello", [Text "hi "; Field0])] []))
               [(1%Z, says "Alice" "hello zbot");
                (2%Z, says "Bob" "zbot, take a break");
                (3%Z, says "Alice" "zbot okay")] in
  silent (fst run) = true
  /\ Forall (fun reply =>
               reply = "sorry. i'll put a lid on it."
               \/ reply = "i'm gonna stay quiet for a bit.")
            (snd run).
Proof.
  apply (handle_all_stays_silent
           [(1%Z, says "Alice" "hello zbot");
            (2%Z, says "Bob" "zbot, take a break");
            (3%Z, says "Alice" "zbot okay")]
           (with_silent true
              (fresh ["zbot"] [(Lit "hello", [Text "hi "; Field0])] []))
           eq_refl).
  repeat constructor; intros msgbody [= <-]; reflexivity.
Defined.
